(** * Streamline tractography core of MRtrix: embedding and properties

    A shallow embedding of
      - [SharedBase] (src/dwi/tractography/tracking/shared.h),
      - the FACT tracking method (dwi/tractography/algorithms/fact.h),
      - the track file [Reader], [WriterUnbuffered] and [Writer]
        (src/dwi/tractography/file.h),
    followed by the properties established about them.

    Conventions.
      - [value_type] arithmetic of the tracking code is carried out in [R]:
        rounding of machine floats is not represented.
      - In the track file code no arithmetic is ever done on a coordinate:
        a [float] is represented by its 32-bit IEEE-754 pattern, a [Z].
      - A C++ exception is [Exception msg]; behaviour the language leaves
        undefined (out-of-range array access, out-of-range conversion to
        [int]) is [Undefined]. *)

From Stdlib Require Import Reals Lra Lia ZArith.
From stdpp Require Import gmap strings list pretty.

Set Default Proof Using "Type".

(** * Part I: the embedding *)

(** ** Outcomes of a call *)

Inductive result (A : Type) : Type :=
  | Ok (a : A)
  | Exception (msg : string)
  | Undefined.
Arguments Ok {A} a.
Arguments Exception {A} msg.
Arguments Undefined {A}.

#[global] Instance result_ret : MRet result := fun _ a => Ok a.
#[global] Instance result_bind : MBind result := fun _ _ f m =>
  match m with
  | Ok a => f a
  | Exception msg => Exception msg
  | Undefined => Undefined
  end.

(** ** Point<T> *)

Record Point (T : Type) : Type := mkPoint { p0 : T; p1 : T; p2 : T }.
Arguments mkPoint {T} _ _ _.
Arguments p0 {T} _.
Arguments p1 {T} _.
Arguments p2 {T} _.

(** ** Properties: string keys, serialised scalar values *)

Abbreviation Properties := (gmap string string).

(** [str] and [to<T>] of the toolkit, one instance per scalar type. *)
Class Scalar (T : Type) : Type := { str : T -> string; to : string -> T }.

(** Modelled from the spec: [Properties::set] (properties.h is not part of
    the sources at hand): "fills target from key if present, else leaves
    default and inserts it".  Returns the value of the target afterwards and
    the updated map. *)
Definition Properties_set {T : Type} `{Scalar T}
    (variable : T) (name : string) (p : Properties) : T * Properties :=
  match p !! name with
  | Some s => (to s, p)
  | None => (variable, <[name := str variable]> p)
  end.

(** the value [Properties_set] leaves in the target *)
Definition effective {T : Type} `{Scalar T} (v : T) (k : string)
    (p : Properties) : T :=
  match p !! k with Some s => to s | None => v end.

Module Tracking.

Open Scope R_scope.

(** Modelled from the spec: the codes returned by [next] (types.h is not
    part of the sources at hand): [CONTINUE], and the termination reasons
    CalibrateFail, ExitImage, BadSignal, HighCurvature, MaxLength, ExitMask
    and EnterExclude. *)
Inductive term_t : Set :=
  | CONTINUE
  | CALIBRATE_FAIL
  | EXIT_IMAGE
  | BAD_SIGNAL
  | HIGH_CURVATURE
  | LENGTH_EXCEED
  | EXIT_MASK
  | ENTER_EXCLUDE.

(** Point<value_type> arithmetic used by the tracking code. *)
Definition dot (a b : Point R) : R := p0 a * p0 b + p1 a * p1 b + p2 a * p2 b.
Definition neg (a : Point R) : Point R := mkPoint (- p0 a) (- p1 a) (- p2 a).
Definition scale (a : Point R) (k : R) : Point R :=
  mkPoint (p0 a * k) (p1 a * k) (p2 a * k).
Definition add (a b : Point R) : Point R :=
  mkPoint (p0 a + p0 b) (p1 a + p1 b) (p2 a + p2 b).
Definition norm (a : Point R) : R := sqrt (dot a a).
Definition normalise (a : Point R) : Point R := scale a (/ norm a).

(** *** Integer conversions *)

Definition INT_MIN : Z := - 2 ^ 31.
Definition INT_MAX : Z := 2 ^ 31 - 1.

(** [int (x)]: truncation toward zero, undefined outside the range of
    [int]. *)
Definition trunc (x : R) : Z := if Rle_dec 0 x then Zfloor x else Zceil x.

Definition int_of (x : R) : result Z :=
  let z := trunc x in
  if decide (INT_MIN <= z <= INT_MAX)%Z then Ok z else Undefined.

(** [round] of the toolkit: [int (x + (x > 0.0 ? 0.5 : -0.5))]. *)
Definition round (x : R) : result Z :=
  int_of (x + (if Rlt_dec 0 x then 1 / 2 else - (1 / 2))).

(** [int + int]; signed overflow is undefined. *)
Definition int_add (a b : Z) : result Z :=
  if decide (INT_MIN <= a + b <= INT_MAX)%Z then Ok (a + b)%Z else Undefined.

(** conversion of an [int] to [size_t] (64 bits). *)
Definition size_t_of (z : Z) : Z := (z mod 2 ^ 64)%Z.

(** *** SharedBase *)

Record SharedBase : Type := mkSharedBase {
  source_vox : Point R;           (* source_buffer.vox(0), vox(1), vox(2) *)
  source_name : string;           (* source_buffer.name() *)
  properties : Properties;
  init_dir : Point R;
  max_num_tracks : Z;
  max_num_attempts : Z;
  min_num_points : Z;
  max_num_points : Z;
  max_angle : R;
  max_angle_rk4 : R;
  cos_max_angle : R;
  cos_max_angle_rk4 : R;
  step_size : R;
  threshold : R;
  init_threshold : R;
  unidirectional : bool;
  rk4 : bool;
  downsampler_ratio : Z           (* downsampler.get_ratio() *)
}.

Section SharedBase.

Context `{Scalar R} `{Scalar bool} `{Scalar Z}.

(** the value of the float constant [NAN] and of the fields of a
    default-constructed [Point] and [Downsampler]: none of them is ever read
    before it is assigned. *)
Variable NAN : R.
Variable default_ratio : Z.
(** [parse_floats] of the toolkit. *)
Variable parse_floats : string -> list R.

(** [SharedBase::SharedBase (diff_path, property_set)]; the source image
    opened from [diff_path] is given by its voxel sizes and its name. *)
Definition SharedBase_new (vox : Point R) (name : string)
    (property_set : Properties) : result SharedBase :=
  let threshold := 1 / 10 in
  let '(threshold, p) := Properties_set threshold "threshold" property_set in
  let '(unidirectional, p) := Properties_set false "unidirectional" p in
  let '(max_num_tracks, p) := Properties_set 0%Z "max_num_tracks" p in
  let '(rk4, p) := Properties_set false "rk4" p in
  let p := <["source" := name]> p in
  let init_threshold := 2 * threshold in
  let '(init_threshold, p) := Properties_set init_threshold "init_threshold" p in
  let max_num_attempts := ((100 * max_num_tracks) mod 2 ^ 64)%Z in
  let '(max_num_attempts, p) := Properties_set max_num_attempts "max_num_attempts" p in
  init_dir ←
    match p !! "init_direction" with
    | Some s =>
        match parse_floats s with
        | [v0; v1; v2] => Ok (normalise (mkPoint v0 v1 v2))
        | _ => Exception ("invalid initial direction " ++ s)
        end
    | None => Ok (mkPoint NAN NAN NAN)
    end;
  let ratio :=
    match p !! "downsample_factor" with
    | Some s => to s
    | None => default_ratio
    end in
  Ok {| source_vox := vox; source_name := name; properties := p;
        init_dir := init_dir;
        max_num_tracks := max_num_tracks;
        max_num_attempts := max_num_attempts;
        min_num_points := 0; max_num_points := 0;
        max_angle := NAN; max_angle_rk4 := NAN;
        cos_max_angle := NAN; cos_max_angle_rk4 := NAN;
        step_size := NAN;
        threshold := threshold; init_threshold := init_threshold;
        unidirectional := unidirectional; rk4 := rk4;
        downsampler_ratio := ratio |}.

(** [SharedBase::vox ()]: the cubic root of the voxel volume. *)
Definition vox (S : SharedBase) : R :=
  Rpower (p0 (source_vox S) * p1 (source_vox S) * p2 (source_vox S)) (1 / 3).

(** [SharedBase::set_step_size (stepsize)]. *)
Definition set_step_size (S : SharedBase) (stepsize : R) : result SharedBase :=
  let step_size := stepsize * vox S in
  let '(step_size, p) := Properties_set step_size "step_size" (properties S) in
  let p :=
    if decide (1 < downsampler_ratio S)%Z
    then <["output_step_size" := str (step_size * IZR (downsampler_ratio S))]> p
    else p in
  let max_dist := 100 * vox S in
  let '(max_dist, p) := Properties_set max_dist "max_dist" p in
  n ← round (max_dist / step_size);
  n ← int_add n 1;
  let max_num_points := size_t_of n in
  let min_dist := 5 * vox S in
  let '(min_dist, p) := Properties_set min_dist "min_dist" p in
  n ← round (min_dist / step_size);
  n ← int_add n 1;
  let min_num_points := size_t_of (Z.max 2 n) in
  let max_angle := 90 * step_size / vox S in
  let '(max_angle, p) := Properties_set max_angle "max_angle" p in
  let max_angle := max_angle * (PI / 180) in
  let cos_max_angle := cos max_angle in
  if rk4 S then
    Ok {| source_vox := source_vox S; source_name := source_name S;
          properties := p; init_dir := init_dir S;
          max_num_tracks := max_num_tracks S;
          max_num_attempts := max_num_attempts S;
          min_num_points := min_num_points; max_num_points := max_num_points;
          max_angle := PI; max_angle_rk4 := max_angle;
          cos_max_angle := 0; cos_max_angle_rk4 := cos_max_angle;
          step_size := step_size;
          threshold := threshold S; init_threshold := init_threshold S;
          unidirectional := unidirectional S; rk4 := rk4 S;
          downsampler_ratio := downsampler_ratio S |}
  else
    Ok {| source_vox := source_vox S; source_name := source_name S;
          properties := p; init_dir := init_dir S;
          max_num_tracks := max_num_tracks S;
          max_num_attempts := max_num_attempts S;
          min_num_points := min_num_points; max_num_points := max_num_points;
          max_angle := max_angle; max_angle_rk4 := max_angle_rk4 S;
          cos_max_angle := cos_max_angle;
          cos_max_angle_rk4 := cos_max_angle_rk4 S;
          step_size := step_size;
          threshold := threshold S; init_threshold := init_threshold S;
          unidirectional := unidirectional S; rk4 := rk4 S;
          downsampler_ratio := downsampler_ratio S |}.

End SharedBase.

End Tracking.

Module FACT.

Import Tracking.
Open Scope R_scope.

(** a 3x3 matrix, by rows: [M(i,j)] is component [j] of row [i]. *)
Abbreviation Matrix3 := (Point (Point R)).

Definition column2 (V : Matrix3) : Point R :=
  mkPoint (p2 (p0 V)) (p2 (p1 V)) (p2 (p2 V)).

(** [FACT::Shared]: the base configuration and the inverted b-matrix. *)
Record Shared (Matrix : Type) : Type := mkShared {
  base : SharedBase;
  bmat : Matrix;
  binv : Matrix
}.
Arguments base {Matrix} _.
Arguments bmat {Matrix} _.
Arguments binv {Matrix} _.

(** the state of one method instance: position, direction and sampled
    values of [MethodBase], and the scratch members of [FACT]. *)
Record Method : Type := mkMethod {
  pos : Point R;
  dir : Point R;
  values : list R;
  M : Matrix3;
  V : Matrix3;
  ev : Point R
}.

Section FACT.

(** collaborators that are outside the sources at hand *)
Variable Matrix : Type.
(** [MethodBase::get_data]: the values interpolated at a position, or
    nothing when the position cannot be sampled. *)
Variable get_data : Point R -> option (list R).
(** [dwi2tensor (binv, &values[0])]: the values after the in-place fit. *)
Variable dwi2tensor : Matrix -> list R -> list R.
(** [tensor2FA (&values[0])]. *)
Variable tensor2FA : list R -> R.
(** [Math::Eigen::SymmV] followed by [Math::Eigen::sort]: eigenvalues in
    increasing order and the matrix whose columns are their eigenvectors. *)
Variable eig_sorted : Matrix3 -> Point R * Matrix3.

Variable S : Shared Matrix.

(** [values[i]] *)
Definition value_at (vs : list R) (i : nat) : result R :=
  match vs !! i with
  | Some v => Ok v
  | None => Undefined
  end.

(** [FACT::get_EV]. *)
Definition get_EV (m : Method) : result Method :=
  v0 ← value_at (values m) 0;
  v1 ← value_at (values m) 1;
  v2 ← value_at (values m) 2;
  v3 ← value_at (values m) 3;
  v4 ← value_at (values m) 4;
  v5 ← value_at (values m) 5;
  let M' := mkPoint (mkPoint v0 v3 v4) (mkPoint v3 v1 v5) (mkPoint v4 v5 v2) in
  let '(ev', V') := eig_sorted M' in
  Ok {| pos := pos m; dir := column2 V'; values := values m;
        M := M'; V := V'; ev := ev' |}.

Definition set_values (m : Method) (vs : list R) : Method :=
  {| pos := pos m; dir := dir m; values := vs; M := M m; V := V m; ev := ev m |}.

Definition set_dir (m : Method) (d : Point R) : Method :=
  {| pos := pos m; dir := d; values := values m; M := M m; V := V m; ev := ev m |}.

Definition set_pos (m : Method) (p : Point R) : Method :=
  {| pos := p; dir := dir m; values := values m; M := M m; V := V m; ev := ev m |}.

(** [FACT::do_init]. *)
Definition do_init (m : Method) : result (bool * Method) :=
  let m := set_values m (dwi2tensor (binv S) (values m)) in
  if Rlt_dec (tensor2FA (values m)) (init_threshold (base S)) then
    Ok (false, m)
  else
    m ← get_EV m;
    Ok (true, m).

(** [FACT::do_next]. *)
Definition do_next (m : Method) : result (term_t * Method) :=
  let m := set_values m (dwi2tensor (binv S) (values m)) in
  if Rlt_dec (tensor2FA (values m)) (threshold (base S)) then
    Ok (BAD_SIGNAL, m)
  else
    let prev_dir := dir m in
    m ← get_EV m;
    let dot := dot prev_dir (dir m) in
    if Rlt_dec (Rabs dot) (cos_max_angle (base S)) then
      Ok (HIGH_CURVATURE, m)
    else
      let m := if Rlt_dec dot 0 then set_dir m (neg (dir m)) else m in
      let m := set_pos m (add (pos m) (scale (dir m) (step_size (base S)))) in
      Ok (CONTINUE, m).

(** [FACT::init]. *)
Definition init (m : Method) : result (bool * Method) :=
  match get_data (pos m) with
  | None => Ok (false, m)
  | Some vs => do_init (set_values m vs)
  end.

(** [FACT::next]. *)
Definition next (m : Method) : result (term_t * Method) :=
  match get_data (pos m) with
  | None => Ok (EXIT_IMAGE, m)
  | Some vs => do_next (set_values m vs)
  end.

End FACT.

End FACT.

Module TrackFile.

Open Scope Z_scope.

(** ** Bytes and machine words *)

Abbreviation byte := Byte.byte.

Definition byte_of_Z (z : Z) : byte :=
  default Byte.x00 (Byte.of_N (Z.to_N (z mod 256))).

Definition Z_of_byte (b : byte) : Z := Z.of_N (Byte.to_N b).

(** the [n] bytes of the word [w], least significant first *)
Fixpoint le_bytes (n : nat) (w : Z) : list byte :=
  match n with
  | O => []
  | S n => byte_of_Z w :: le_bytes n (w / 256)
  end.

Fixpoint of_le_bytes (bs : list byte) : Z :=
  match bs with
  | [] => 0
  | b :: bs => Z_of_byte b + 256 * of_le_bytes bs
  end.

(** [++n] on a [size_t] *)
Definition size_t_incr (n : Z) : Z := (n + 1) mod 2 ^ 64.

(** ** float: the 32-bit pattern of the value *)

Definition NAN : Z := 0x7fc00000.
Definition INFINITY : Z := 0x7f800000.
Definition one : Z := 0x3f800000.

Definition exponent (w : Z) : Z := Z.land (Z.shiftr w 23) 255.
Definition mantissa (w : Z) : Z := Z.land w (2 ^ 23 - 1).

Definition isinf (w : Z) : bool := (exponent w =? 255) && (mantissa w =? 0).
Definition isnan (w : Z) : bool := (exponent w =? 255) && negb (mantissa w =? 0).

Definition Point_map {A B : Type} (f : A -> B) (p : Point A) : Point B :=
  mkPoint (f (p0 p)) (f (p1 p)) (f (p2 p)).

(** the header's data types; the track file code distinguishes the four
    floating-point ones *)
Inductive DataType : Set :=
  | Float32LE
  | Float32BE
  | Float64LE
  | Float64BE
  | OtherType.

Definition is_little_endian (dt : DataType) : bool :=
  match dt with
  | Float32LE | Float64LE => true
  | _ => false
  end.

(** [Streamline<float>]: the points, and the members [index] and [weight] *)
Record Streamline : Type := mkStreamline {
  points : list (Point Z);
  index : Z;
  weight : Z
}.

(** ** The objects of a machine: values in memory *)

Section Host.

(** the byte order of the machine *)
Variable host_le : bool.

(** the [n] bytes of a word in memory, and the word they hold *)
Definition mem_bytes (n : nat) (w : Z) : list byte :=
  if host_le then le_bytes n w else rev (le_bytes n w).

Definition of_mem_bytes (bs : list byte) : Z :=
  if host_le then of_le_bytes bs else of_le_bytes (rev bs).

Definition swap (n : nat) (w : Z) : Z := of_le_bytes (rev (le_bytes n w)).

(** Modelled from the spec: [ByteOrder::LE] and [ByteOrder::BE] (get_set.h
    is not part of the sources at hand), "byte order of each point matches
    the data type declared in the header; conversion applied per point": the
    value is kept when the order asked for is the machine's, its bytes are
    reversed otherwise. *)
Definition LE (n : nat) (w : Z) : Z := if host_le then w else swap n w.
Definition BE (n : nat) (w : Z) : Z := if host_le then swap n w else w.

(** the bytes of a [Point] of [n]-byte coordinates in memory *)
Definition Point_mem (n : nat) (p : Point Z) : list byte :=
  mem_bytes n (p0 p) ++ mem_bytes n (p1 p) ++ mem_bytes n (p2 p).

Definition Point_of_mem (n : nat) (bs : list byte) : Point Z :=
  mkPoint (of_mem_bytes (take n bs))
          (of_mem_bytes (take n (drop n bs)))
          (of_mem_bytes (take n (drop (2 * n) bs))).

(** [sizeof (Point<float>)] *)
Definition sizeof_Point : nat := 12.

(** ** std::ifstream, as far as the reader uses it *)

Record ifstream : Type := mk_ifstream {
  is_open : bool;
  content : list byte;
  gpos : nat;
  eofbit : bool
}.

(** no error other than reaching the end of the file is represented *)
Definition good (s : ifstream) : bool := negb (eofbit s).

Definition close (s : ifstream) : ifstream :=
  {| is_open := false; content := content s; gpos := gpos s; eofbit := eofbit s |}.

(** [in.read (dest, n)]: the bytes obtained, at most [n]; fewer than [n]
    sets [eofbit] (and [failbit]). *)
Definition read (n : nat) (s : ifstream) : list byte * ifstream :=
  if eofbit s then ([], s)
  else
    let bs := take n (drop (gpos s) (content s)) in
    (bs, {| is_open := is_open s; content := content s;
            gpos := (gpos s + length bs)%nat;
            eofbit := bool_decide (length bs < n)%nat |}).

(** ** Reader<float> *)

Record Reader : Type := mkReader {
  in_ : ifstream;
  dtype : DataType;
  current_index : Z;
  weights : list Z
}.

(** the coordinate of a default-constructed [Point], by coordinate size *)
Variable Point_default : nat -> Z.
(** conversion of a [double] to [float] *)
Variable float_of_double : Z -> Z.

Definition Point_new (n : nat) : Point Z :=
  mkPoint (Point_default n) (Point_default n) (Point_default n).

(** [in.read ((char* ) &p, sizeof (p))] into a default-constructed point of
    [n]-byte coordinates: the bytes read overwrite the first bytes of [p]. *)
Definition read_Point (n : nat) (s : ifstream) : Point Z * ifstream :=
  let p := Point_new n in
  let '(bs, s) := read (3 * n) s in
  (Point_of_mem n (bs ++ drop (length bs) (Point_mem n p)), s).

(** [Reader::get_next_point]; the assertion of the default case fails. *)
Definition get_next_point (r : Reader) : result (Point Z * ifstream) :=
  match dtype r with
  | Float32LE =>
      let '(p, s) := read_Point 4 (in_ r) in Ok (Point_map (LE 4) p, s)
  | Float32BE =>
      let '(p, s) := read_Point 4 (in_ r) in Ok (Point_map (BE 4) p, s)
  | Float64LE =>
      let '(p, s) := read_Point 8 (in_ r) in
      Ok (Point_map (fun d => float_of_double (LE 8 d)) p, s)
  | Float64BE =>
      let '(p, s) := read_Point 8 (in_ r) in
      Ok (Point_map (fun d => float_of_double (BE 8 d)) p, s)
  | OtherType => Undefined
  end.

Definition set_in (r : Reader) (s : ifstream) : Reader :=
  {| in_ := s; dtype := dtype r; current_index := current_index r;
     weights := weights r |}.

Definition incr_current_index (r : Reader) : Reader :=
  {| in_ := in_ r; dtype := dtype r;
     current_index := size_t_incr (current_index r); weights := weights r |}.

(** the [do ... while (in.good())] loop of [Reader::operator()], and what
    follows it; [fuel] bounds the number of iterations. *)
Fixpoint Reader_loop (fuel : nat) (r : Reader) (tck : Streamline)
    : result (bool * Streamline * Reader) :=
  match fuel with
  | O => Undefined
  | S fuel =>
      '(p, s) ← get_next_point r;
      let r := set_in r s in
      if isinf (p0 p) then Ok (false, tck, set_in r (close s))
      else if eofbit s then Ok (false, tck, set_in r (close s))
      else if isnan (p0 p) then
        let tck := {| points := points tck; index := current_index r;
                      weight := weight tck |} in
        match weights r with
        | _ :: _ =>
            match weights r !! Z.to_nat (current_index r) with
            | None => Ok (false, tck, r)
            | Some wt =>
                Ok (true, {| points := points tck; index := index tck;
                             weight := wt |}, incr_current_index r)
            end
        | [] =>
            Ok (true, {| points := points tck; index := index tck;
                         weight := one |}, incr_current_index r)
        end
      else
        let tck := {| points := points tck ++ [p]; index := index tck;
                      weight := weight tck |} in
        if good s then Reader_loop fuel r tck
        else Ok (false, tck, set_in r (close s))
  end.

(** [Reader::operator() (tck)]: every iteration but the last consumes a
    whole point of the file, which bounds their number. *)
Definition Reader_call (r : Reader) (tck : Streamline)
    : result (bool * Streamline * Reader) :=
  let tck := {| points := []; index := index tck; weight := weight tck |} in
  if is_open (in_ r) then
    Reader_loop (S (length (content (in_ r)) - gpos (in_ r))) r tck
  else Ok (false, tck, r).

(** ** The file system and the settings of the application *)

Record World : Type := mkWorld {
  files : gmap string (list byte);
  readonly : gset string;            (* paths that cannot be opened for writing *)
  overwrite_files : bool;            (* App::overwrite_files *)
  tck_weights_in : option string;    (* App::get_options ("tck_weights_in") *)
  tck_weights_out : option string;   (* App::get_options ("tck_weights_out") *)
  TrackWriterBufferSize : option Z   (* the entry of the configuration file *)
}.

Definition set_file (path : string) (f : list byte) (σ : World) : World :=
  {| files := <[path := f]> (files σ); readonly := readonly σ;
     overwrite_files := overwrite_files σ;
     tck_weights_in := tck_weights_in σ;
     tck_weights_out := tck_weights_out σ;
     TrackWriterBufferSize := TrackWriterBufferSize σ |}.

(** [Path::exists] *)
Definition Path_exists (path : string) (σ : World) : bool :=
  bool_decide (is_Some (files σ !! path)).

Definition writable (path : string) (σ : World) : bool :=
  bool_decide (path ≠ EmptyString ∧ path ∉ readonly σ).

(** [std::ofstream out (path, out | binary | trunc)]: the file is created
    empty, when it can be opened. *)
Definition ofstream_trunc (path : string) (σ : World) : option World :=
  if writable path σ then Some (set_file path [] σ) else None.

(** [std::ofstream out (path, in | out | binary | ate)]: the content of the
    file, which has to exist; the put position is its end. *)
Definition ofstream_ate (path : string) (σ : World) : option (list byte) :=
  if writable path σ then files σ !! path else None.

(** writing [bs] at position [pos] of a file; a gap is filled with zeros.
    Writing to an open stream succeeds: a full disk is not represented. *)
Definition write_at (pos : nat) (bs : list byte) (f : list byte) : list byte :=
  take pos f ++ replicate (pos - length f) Byte.x00 ++ bs
    ++ drop (pos + length bs) f.

(** [a[i] = x] on an array; outside the array the behaviour is undefined *)
Definition store {A : Type} (a : list A) (i : nat) (x : A) : result (list A) :=
  if decide (i < length a)%nat then Ok (<[i := x]> a) else Undefined.

(** the bytes of an array of [Point<float>] *)
Definition Points_mem (ps : list (Point Z)) : list byte :=
  concat (map (Point_mem 4) ps).

(** ** WriterUnbuffered<float> *)

(** the members of [__WriterBase__] ([count], [total_count], [name], [dtype]
    and [count_offset]) and of [WriterUnbuffered] *)
Record WriterUnbuffered : Type := mkWriterUnbuffered {
  count : Z;
  total_count : Z;
  name : string;
  wdtype : DataType;
  count_offset : nat;
  weights_name : string;
  barrier_addr : nat
}.

(** collaborators of the base class (file_base.h), outside the sources at
    hand: [create] gives the header block it writes and the offset of the
    counts in it, the put position being left at the end of the block;
    [update_counts] rewrites the counts of a file at that offset. *)
Variable create : DataType -> Properties -> list byte * nat.
Variable update_counts : nat -> Z -> Z -> list byte -> list byte.
(** [str] of a [float] *)
Variable str_float : Z -> string.

(** the string of the character '\n' *)
Definition newline : string := String (Ascii.ascii_of_nat 10) EmptyString.

Definition delimiter : Point Z := mkPoint NAN NAN NAN.
Definition barrier : Point Z := mkPoint INFINITY INFINITY INFINITY.

(** [WriterUnbuffered::format_point (src, dest)]: the value given to
    [dest]. *)
Definition format_point (dt : DataType) (src : Point Z) : Point Z :=
  if is_little_endian dt then Point_map (LE 4) src else Point_map (BE 4) src.

Definition set_barrier_addr (w : WriterUnbuffered) (a : nat) : WriterUnbuffered :=
  {| count := count w; total_count := total_count w; name := name w;
     wdtype := wdtype w; count_offset := count_offset w;
     weights_name := weights_name w; barrier_addr := a |}.

Definition set_weights_name (w : WriterUnbuffered) (s : string) : WriterUnbuffered :=
  {| count := count w; total_count := total_count w; name := name w;
     wdtype := wdtype w; count_offset := count_offset w;
     weights_name := s; barrier_addr := barrier_addr w |}.

Definition incr_count (w : WriterUnbuffered) : WriterUnbuffered :=
  {| count := size_t_incr (count w); total_count := total_count w;
     name := name w; wdtype := wdtype w; count_offset := count_offset w;
     weights_name := weights_name w; barrier_addr := barrier_addr w |}.

Definition incr_total_count (w : WriterUnbuffered) : WriterUnbuffered :=
  {| count := count w; total_count := size_t_incr (total_count w);
     name := name w; wdtype := wdtype w; count_offset := count_offset w;
     weights_name := weights_name w; barrier_addr := barrier_addr w |}.

(** [WriterUnbuffered::set_weights_path (path)] *)
Definition set_weights_path (w : WriterUnbuffered) (path : string) (σ : World)
    : result (WriterUnbuffered * World) :=
  if decide (weights_name w ≠ EmptyString) then
    Exception "Cannot change output streamline weights file path"
  else
    let w := set_weights_name w path in
    if negb (overwrite_files σ) && Path_exists (name w) σ then
      Exception ("error creating file " ++ weights_name w
                 ++ ": file exists (use -force option to force overwrite)")
    else
      match ofstream_trunc (weights_name w) σ with
      | None =>
          Exception ("error creating empty streamline weights file "
                     ++ weights_name w)
      | Some σ => Ok (w, σ)
      end.

(** [WriterUnbuffered::WriterUnbuffered (file, properties)]; [dt] is the
    data type set by the constructor of the base class. *)
Definition WriterUnbuffered_new (file : string) (dt : DataType)
    (properties : Properties) (σ : World) : result (WriterUnbuffered * World) :=
  match ofstream_trunc file σ with
  | None => Exception ("error creating tracks file " ++ file)
  | Some σ =>
      let '(header, offset) := create dt properties in
      let barrier_addr := length header in
      let x := format_point dt barrier in
      let σ := set_file file (write_at barrier_addr (Point_mem 4 x) header) σ in
      let w := {| count := 0; total_count := 0; name := file; wdtype := dt;
                  count_offset := offset; weights_name := EmptyString;
                  barrier_addr := barrier_addr |} in
      match tck_weights_out σ with
      | Some path => set_weights_path w path σ
      | None => Ok (w, σ)
      end
  end.

(** [WriterUnbuffered::write_weights (contents)] *)
Definition write_weights (w : WriterUnbuffered) (contents : string) (σ : World)
    : result World :=
  match ofstream_ate (weights_name w) σ with
  | None =>
      Exception ("error re-opening streamline weights file " ++ weights_name w)
  | Some f =>
      Ok (set_file (weights_name w) (f ++ String.list_byte_of_string contents) σ)
  end.

(** [WriterUnbuffered::commit (data, num_points)]; the array [data] is
    returned as the call leaves it. *)
Definition commit (w : WriterUnbuffered) (data : list (Point Z))
    (num_points : nat) (σ : World)
    : result (WriterUnbuffered * list (Point Z) * World) :=
  if decide (num_points = 0)%nat then Ok (w, data, σ)
  else
    let prev_barrier_addr := barrier_addr w in
    data ← store data num_points (format_point (wdtype w) barrier);
    match ofstream_ate (name w) σ with
    | None => Exception ("error re-opening tracks file " ++ name w)
    | Some f =>
        let f := f ++ Points_mem (take num_points (drop 1 data)) in
        let w := set_barrier_addr w (length f - sizeof_Point)%nat in
        let f := write_at prev_barrier_addr (Points_mem (take 1 data)) f in
        let f := update_counts (count_offset w) (count w) (total_count w) f in
        Ok (w, data, set_file (name w) f σ)
    end.

(** the array filled by the loop of [WriterUnbuffered::operator()] *)
Definition unbuffered_buffer (dt : DataType) (tck : list (Point Z))
    : list (Point Z) :=
  let buffer := replicate (length tck + 2) (Point_new 4) in
  let buffer :=
    foldl (fun buffer n => <[n := format_point dt barrier]> buffer)
          buffer (seq 0 (length tck)) in
  <[length tck := format_point dt delimiter]> buffer.

(** [WriterUnbuffered::operator() (tck)] *)
Definition WriterUnbuffered_call (w : WriterUnbuffered) (tck : Streamline)
    (σ : World) : result (bool * WriterUnbuffered * World) :=
  '(w, σ) ←
    match points tck with
    | [] => Ok (w, σ)
    | _ :: _ =>
        let buffer := unbuffered_buffer (wdtype w) (points tck) in
        '(w, _, σ) ← commit w buffer (length (points tck) + 1) σ;
        σ ← (if decide (weights_name w ≠ EmptyString)
             then write_weights w (str_float (weight tck) ++ newline) σ
             else Ok σ);
        Ok (incr_count w, σ)
    end;
  Ok (true, incr_total_count w, σ).

(** ** Writer<float> *)

(** the members of [Writer]; [commits] is no member of the class: it counts
    the calls of [Writer::commit], to tell how often the buffer is flushed. *)
Record Writer : Type := mkWriter {
  super : WriterUnbuffered;
  buffer_capacity : nat;
  buffer : list (Point Z);
  buffer_size : nat;
  weights_buffer : string;
  commits : nat
}.

(** [Writer::Writer (file, properties, default_buffer_capacity)]:
    [File::Config::get_int] gives an [int], which the division by
    [sizeof (Point<float>)] converts to [size_t]. *)
Definition Writer_new (file : string) (dt : DataType) (properties : Properties)
    (default_buffer_capacity : Z) (σ : World) : result (Writer * World) :=
  '(u, σ) ← WriterUnbuffered_new file dt properties σ;
  let n := default default_buffer_capacity (TrackWriterBufferSize σ) in
  let capacity := Z.to_nat ((n mod 2 ^ 64) / Z.of_nat sizeof_Point) in
  Ok ({| super := u; buffer_capacity := capacity;
         buffer := replicate (capacity + 2) (Point_new 4);
         buffer_size := 0; weights_buffer := EmptyString; commits := 0 |}, σ).

(** [Writer::add_point (p)] *)
Definition add_point (w : Writer) (p : Point Z) : result Writer :=
  buffer ← store (buffer w) (buffer_size w) (format_point (wdtype (super w)) p);
  Ok {| super := super w; buffer_capacity := buffer_capacity w;
        buffer := buffer; buffer_size := S (buffer_size w);
        weights_buffer := weights_buffer w; commits := commits w |}.

(** the loop of [Writer::operator()] over the points of the streamline *)
Fixpoint add_points (w : Writer) (ps : list (Point Z)) : result Writer :=
  match ps with
  | [] => Ok w
  | p :: ps => w ← add_point w p; add_points w ps
  end.

(** [Writer::commit ()] *)
Definition Writer_commit (w : Writer) (σ : World) : result (Writer * World) :=
  '(u, data, σ) ← commit (super w) (buffer w) (buffer_size w) σ;
  if decide (weights_name u ≠ EmptyString) then
    σ ← write_weights u (weights_buffer w) σ;
    Ok ({| super := u; buffer_capacity := buffer_capacity w; buffer := data;
           buffer_size := 0; weights_buffer := EmptyString;
           commits := S (commits w) |}, σ)
  else
    Ok ({| super := u; buffer_capacity := buffer_capacity w; buffer := data;
           buffer_size := 0; weights_buffer := weights_buffer w;
           commits := S (commits w) |}, σ).

Definition set_super (w : Writer) (u : WriterUnbuffered) : Writer :=
  {| super := u; buffer_capacity := buffer_capacity w; buffer := buffer w;
     buffer_size := buffer_size w; weights_buffer := weights_buffer w;
     commits := commits w |}.

Definition set_weights_buffer (w : Writer) (s : string) : Writer :=
  {| super := super w; buffer_capacity := buffer_capacity w;
     buffer := buffer w; buffer_size := buffer_size w; weights_buffer := s;
     commits := commits w |}.

(** [Writer::operator() (tck)] *)
Definition Writer_call (w : Writer) (tck : Streamline) (σ : World)
    : result (bool * Writer * World) :=
  '(w, σ) ←
    match points tck with
    | [] => Ok (w, σ)
    | _ :: _ =>
        '(w, σ) ←
          (if decide (buffer_capacity w < buffer_size w + length (points tck))%nat
           then Writer_commit w σ else Ok (w, σ));
        w ← add_points w (points tck);
        w ← add_point w delimiter;
        let w :=
          if decide (weights_name (super w) ≠ EmptyString)
          then set_weights_buffer w
                 (weights_buffer w ++ str_float (weight tck) ++ " ")
          else w in
        Ok (set_super w (incr_count (super w)), σ)
    end;
  Ok (true, set_super w (incr_total_count (super w)), σ).

(** [Writer::~Writer ()], as far as the class itself goes: the destructors
    of the base classes are outside the sources at hand. *)
Definition Writer_delete (w : Writer) (σ : World) : result (Writer * World) :=
  Writer_commit w σ.

(** appending the streamlines of a list, one call each *)
Fixpoint Writer_calls (w : Writer) (tcks : list Streamline) (σ : World)
    : result (Writer * World) :=
  match tcks with
  | [] => Ok (w, σ)
  | tck :: tcks => '(_, w, σ) ← Writer_call w tck σ; Writer_calls w tcks σ
  end.

Fixpoint WriterUnbuffered_calls (w : WriterUnbuffered) (tcks : list Streamline)
    (σ : World) : result (WriterUnbuffered * World) :=
  match tcks with
  | [] => Ok (w, σ)
  | tck :: tcks =>
      '(_, w, σ) ← WriterUnbuffered_call w tck σ;
      WriterUnbuffered_calls w tcks σ
  end.

(** ** Reader: construction and reading a whole file *)

(** collaborators outside the sources at hand: [__ReaderBase__::open], which
    gives the properties read from the header, the data type and the offset
    of the data, where it leaves the stream; and [Math::Vector::load]. *)
Variable open : list byte -> result (Properties * DataType * nat).
Variable load : list byte -> result (list Z).

(** [Reader::Reader (file, properties)]; the warning and the debugging
    message leave no trace. *)
Definition Reader_new (file : string) (σ : World)
    : result (Reader * Properties) :=
  match files σ !! file with
  | None => Exception ("error opening tracks file " ++ file)
  | Some f =>
      '(properties, dt, offset) ← open f;
      let s := {| is_open := true; content := f; gpos := offset;
                  eofbit := false |} in
      match tck_weights_in σ with
      | Some path =>
          match files σ !! path with
          | None => Exception ("error opening file " ++ path)
          | Some wf =>
              weights ← load wf;
              Ok ({| in_ := s; dtype := dt; current_index := 0;
                     weights := weights |}, properties)
          end
      | None =>
          Ok ({| in_ := s; dtype := dt; current_index := 0; weights := [] |},
              properties)
      end
  end.

(** calling the reader until it returns [false], at most [n] times: the
    streamlines obtained, in order *)
Fixpoint Reader_all (n : nat) (r : Reader) (tck : Streamline)
    : result (list Streamline * Reader) :=
  match n with
  | O => Ok ([], r)
  | S n =>
      '(more, tck, r) ← Reader_call r tck;
      if (more : bool) then
        '(tcks, r) ← Reader_all n r tck; Ok (tck :: tcks, r)
      else Ok ([], r)
  end.

End Host.

(** ** The track file format, for the statements *)

(** the bytes of a coordinate and of a point in a file of data type [dt] *)
Definition coordinate_bytes (dt : DataType) (w : Z) : list byte :=
  if is_little_endian dt then le_bytes 4 w else rev (le_bytes 4 w).

Definition point_bytes (dt : DataType) (p : Point Z) : list byte :=
  coordinate_bytes dt (p0 p) ++ coordinate_bytes dt (p1 p)
    ++ coordinate_bytes dt (p2 p).

Definition points_bytes (dt : DataType) (ps : list (Point Z)) : list byte :=
  concat (map (point_bytes dt) ps).

(** the data of a list of streamlines: the points of each non-empty one,
    followed by a delimiter *)
Definition streamline_bytes (dt : DataType) (tck : Streamline) : list byte :=
  match points tck with
  | [] => []
  | _ :: _ => points_bytes dt (points tck) ++ point_bytes dt delimiter
  end.

Definition data_bytes (dt : DataType) (tcks : list Streamline) : list byte :=
  concat (map (streamline_bytes dt) tcks).

(** a coordinate that is a 32-bit pattern, and a point that can be told from
    the delimiter and from the barrier *)
Definition is_float (w : Z) : Prop := 0 <= w < 2 ^ 32.

Definition is_point (p : Point Z) : Prop :=
  is_float (p0 p) /\ is_float (p1 p) /\ is_float (p2 p)
  /\ isnan (p0 p) = false /\ isinf (p0 p) = false.

(** [update] changes nothing of a file from offset [H] on, nor its length *)
Definition header_only (H : nat) (update : list byte -> list byte) : Prop :=
  forall f, (H <= length f)%nat ->
    length (update f) = length f /\ drop H (update f) = drop H f.

(** [update_counts], for counts at [offset], keeps to the header, which ends
    at offset [H] *)
Definition counts_in_header (H offset : nat)
    (update_counts : nat -> Z -> Z -> list byte -> list byte) : Prop :=
  forall count total, header_only H (update_counts offset count total).

(** what the unbuffered writer adds to the data for a streamline *)
Definition unbuffered_bytes (dt : DataType) (tck : Streamline) : list byte :=
  match points tck with
  | [] => []
  | _ :: _ =>
      points_bytes dt (replicate (length (points tck)) barrier)
        ++ point_bytes dt delimiter
  end.

(** the points a list of streamlines puts in the buffer: those of each
    non-empty one, followed by a delimiter *)
Definition buffered_points (tcks : list Streamline) : list (Point Z) :=
  concat (map (fun tck => match points tck with
                          | [] => []
                          | _ :: _ => points tck ++ [delimiter]
                          end) tcks).

(** the state of a writer and of its file between two calls: the file holds
    [body] from offset [H] on, followed by the barrier, at which
    [barrier_addr] points; the files of the writer can be reopened, and the
    weights go to a file of their own. *)
Definition writer_ok (H : nat) (body : list byte) (w : WriterUnbuffered)
    (σ : World) : Prop :=
  writable (name w) σ = true
  /\ (exists f, files σ !! name w = Some f /\ (H <= length f)%nat
                /\ drop H f = body ++ point_bytes (wdtype w) barrier)
  /\ barrier_addr w = (H + length body)%nat
  /\ (weights_name w = EmptyString
      \/ (weights_name w <> name w /\ writable (weights_name w) σ = true
          /\ is_Some (files σ !! weights_name w))).

(** the state of a buffered writer between two calls, on a machine of byte
    order [host_le]: the file holds [body], and the buffer the points of
    [pending], formatted *)
Definition Writer_ok (host_le : bool) (H : nat) (body : list byte)
    (pending : list Streamline) (w : Writer) (σ : World) : Prop :=
  writer_ok H body (super w) σ
  /\ length (buffer w) = (buffer_capacity w + 2)%nat
  /\ (buffer_size w <= buffer_capacity w + 1)%nat
  /\ buffer_size w = length (buffered_points pending)
  /\ take (buffer_size w) (buffer w)
     = map (format_point host_le (wdtype (super w))) (buffered_points pending).

(** the stream of a reader at offset [n] of the file [f] *)
Definition stream_at (f : list byte) (n : nat) : ifstream :=
  {| is_open := true; content := f; gpos := n; eofbit := false |}.

(** the streamlines a reader is to give back: the non-empty ones, numbered
    from [i], each with weight 1 *)
Fixpoint read_back (i : Z) (tcks : list Streamline) : list Streamline :=
  match tcks with
  | [] => []
  | tck :: tcks =>
      match points tck with
      | [] => read_back i tcks
      | _ :: _ =>
          {| points := points tck; index := i; weight := one |}
            :: read_back (size_t_incr i) tcks
      end
  end.

End TrackFile.

(** ** Concrete collaborators, on which the embedding can be run *)

Module Example.

Open Scope R_scope.

Definition Scalar_R : Scalar R := {| str := fun _ => "7"; to := fun _ => 7 |}.

Definition Scalar_bool : Scalar bool :=
  {| str := fun b : bool => if b then "1" else "0";
     to := fun s => bool_decide (s = "1") |}.

Definition Scalar_Z : Scalar Z := {| str := pretty; to := fun _ => 0%Z |}.

Definition parse_floats (s : string) : list R := [1; 0; 0].

(** a configuration over an image of 1 mm isotropic voxels *)
Definition shared (rk4 : bool) (p : Properties) : Tracking.SharedBase :=
  {| Tracking.source_vox := mkPoint 1 1 1;
     Tracking.source_name := "dwi.mif";
     Tracking.properties := p;
     Tracking.init_dir := mkPoint 1 0 0;
     Tracking.max_num_tracks := 0;
     Tracking.max_num_attempts := 0;
     Tracking.min_num_points := 0;
     Tracking.max_num_points := 0;
     Tracking.max_angle := 0;
     Tracking.max_angle_rk4 := 0;
     Tracking.cos_max_angle := 1 / 2;
     Tracking.cos_max_angle_rk4 := 0;
     Tracking.step_size := 1;
     Tracking.threshold := 1 / 10;
     Tracking.init_threshold := 2 / 10;
     Tracking.unidirectional := false;
     Tracking.rk4 := rk4;
     Tracking.downsampler_ratio := 1 |}.

(** collaborators of the FACT method: every position is sampled, the tensor
    is the sample itself, its anisotropy is 0.5 and its principal
    eigenvector is the z axis *)
Definition get_data (p : Point R) : option (list R) :=
  Some [1; 1; 1; 0; 0; 0].

Definition dwi2tensor (binv : unit) (vs : list R) : list R := vs.

Definition tensor2FA (vs : list R) : R := 1 / 2.

Definition eig_sorted (M : Point (Point R)) : Point R * Point (Point R) :=
  (mkPoint 1 1 1, mkPoint (mkPoint 1 0 0) (mkPoint 0 1 0) (mkPoint 0 0 1)).

Definition fact_shared : FACT.Shared unit :=
  {| FACT.base := shared false ∅; FACT.bmat := tt; FACT.binv := tt |}.

(** a method instance at the origin, heading along [d] *)
Definition method (d : Point R) : FACT.Method :=
  {| FACT.pos := mkPoint 0 0 0; FACT.dir := d; FACT.values := [];
     FACT.M := mkPoint (mkPoint 0 0 0) (mkPoint 0 0 0) (mkPoint 0 0 0);
     FACT.V := mkPoint (mkPoint 0 0 0) (mkPoint 0 0 0) (mkPoint 0 0 0);
     FACT.ev := mkPoint 0 0 0 |}.

(** a header of 17 bytes: one for the data type, then [count] and
    [total_count] as words of 8 bytes *)
Definition dtype_code (dt : TrackFile.DataType) : Z :=
  match dt with
  | TrackFile.Float32LE => 0
  | TrackFile.Float32BE => 1
  | TrackFile.Float64LE => 2
  | TrackFile.Float64BE => 3
  | TrackFile.OtherType => 4
  end.

Definition dtype_of_code (z : Z) : TrackFile.DataType :=
  if (z =? 0)%Z then TrackFile.Float32LE
  else if (z =? 1)%Z then TrackFile.Float32BE
  else if (z =? 2)%Z then TrackFile.Float64LE
  else if (z =? 3)%Z then TrackFile.Float64BE
  else TrackFile.OtherType.

Definition create (dt : TrackFile.DataType) (p : Properties)
    : list Byte.byte * nat :=
  (TrackFile.byte_of_Z (dtype_code dt) :: replicate 16 Byte.x00, 1%nat).

Definition update_counts (offset : nat) (count total : Z)
    (f : list Byte.byte) : list Byte.byte :=
  TrackFile.write_at offset
    (TrackFile.le_bytes 8 count ++ TrackFile.le_bytes 8 total) f.

Definition open (f : list Byte.byte)
    : result (Properties * TrackFile.DataType * nat) :=
  if decide (length f < 17)%nat then Exception "not a track file"
  else
    Ok (<["count" := pretty (TrackFile.of_le_bytes (take 8 (drop 1 f)))]>
          (<["total_count" :=
               pretty (TrackFile.of_le_bytes (take 8 (drop 9 f)))]> ∅),
        dtype_of_code (TrackFile.of_le_bytes (take 1 f)), 17%nat).

(** a weights file of one byte per weight *)
Definition load (f : list Byte.byte) : result (list Z) :=
  Ok (map TrackFile.Z_of_byte f).

Definition str_float (w : Z) : string := pretty w.

(** a machine with little-endian words, an empty file system and no option
    set; [force] is the option -force *)
Definition world (force : bool) (buffer_size : option Z) : TrackFile.World :=
  {| TrackFile.files := ∅; TrackFile.readonly := ∅;
     TrackFile.overwrite_files := force;
     TrackFile.tck_weights_in := None;
     TrackFile.tck_weights_out := None;
     TrackFile.TrackWriterBufferSize := buffer_size |}.

(** the floats 1, 2 and 3, and a streamline through three points *)
Definition f1 : Z := 0x3f800000.
Definition f2 : Z := 0x40000000.
Definition f3 : Z := 0x40400000.

Definition tck3 (weight : Z) : TrackFile.Streamline :=
  {| TrackFile.points := [mkPoint f1 f2 f3; mkPoint f2 f3 f1; mkPoint f3 f1 f2];
     TrackFile.index := 0; TrackFile.weight := weight |}.

End Example.

(** * Part II: properties *)

(** ** Properties and integer conversions *)

Section Properties_facts.

Context {T : Type} `{Scalar T}.

Lemma Properties_set_spec (v : T) (k : string) (p : Properties) x p' :
  Properties_set v k p = (x, p') ->
  x = match p !! k with Some s => to s | None => v end /\
  (forall k', k' ≠ k -> p' !! k' = p !! k').
Proof.
  unfold Properties_set. destruct (p !! k) eqn:E; intros [= <- <-].
  - split; [reflexivity | auto].
  - split; [reflexivity | intros k' Hk; now rewrite lookup_insert_ne].
Qed.

End Properties_facts.

Module TrackingProperties.

Import Tracking.
Open Scope R_scope.

Lemma vox_pos (S : SharedBase) : 0 < vox S.
Proof. unfold vox, Rpower. apply exp_pos. Qed.

Lemma trunc_pos (x : R) : 0 <= x -> trunc x = Zfloor x.
Proof. intros Hx. unfold trunc. destruct (Rle_dec 0 x); [reflexivity | lra]. Qed.

Lemma INT_MAX_eq : INT_MAX = 2147483647%Z.
Proof. reflexivity. Qed.

Lemma INT_MIN_eq : INT_MIN = (-2147483648)%Z.
Proof. reflexivity. Qed.

Lemma round_Ok (x : R) :
  0 < x -> x < IZR INT_MAX - 1 ->
  exists n, round x = Ok n /\ (0 <= n < INT_MAX)%Z /\
            IZR n <= x + 1 / 2 < IZR n + 1.
Proof.
  rewrite INT_MAX_eq. intros Hx Hb. exists (Zfloor (x + 1 / 2)).
  pose proof (Zfloor_bound (x + 1 / 2)) as Hf.
  assert (Hn : (0 <= Zfloor (x + 1 / 2) < 2147483647)%Z).
  { split.
    - apply Zfloor_lub. lra.
    - apply lt_IZR. lra. }
  split; [| split; [exact Hn | exact Hf]].
  unfold round, int_of. destruct (Rlt_dec 0 x); [| lra].
  rewrite trunc_pos by lra.
  destruct (decide _) as [_ | Hd]; [reflexivity |].
  exfalso. apply Hd. rewrite INT_MIN_eq, INT_MAX_eq. lia.
Qed.

Lemma round_IZR (z : Z) :
  (0 < z <= INT_MAX)%Z -> round (IZR z) = Ok z.
Proof.
  rewrite INT_MAX_eq. intros Hz. unfold round, int_of.
  assert (0 < IZR z) by (apply IZR_lt; lia).
  destruct (Rlt_dec 0 (IZR z)) as [_ | Hn]; [| tauto].
  rewrite trunc_pos by lra.
  rewrite (Zfloor_eq z) by lra.
  destruct (decide _) as [_ | Hd]; [reflexivity |].
  exfalso. apply Hd. rewrite INT_MIN_eq, INT_MAX_eq. lia.
Qed.

Lemma int_add_Ok (a b : Z) :
  (INT_MIN <= a + b <= INT_MAX)%Z -> int_add a b = Ok (a + b)%Z.
Proof. intros Hr. unfold int_add. destruct (decide _); [reflexivity | tauto]. Qed.

Lemma round_eq (z : Z) (x : R) :
  0 < x -> (0 <= z <= INT_MAX)%Z -> IZR z <= x + 1 / 2 < IZR z + 1 ->
  round x = Ok z.
Proof.
  rewrite INT_MAX_eq. intros Hx Hz Hb. unfold round, int_of.
  destruct (Rlt_dec 0 x) as [_ | Hn]; [| tauto].
  assert (0 <= IZR z) by (apply IZR_le; lia).
  rewrite trunc_pos by lra.
  rewrite (Zfloor_eq z) by lra.
  destruct (decide _) as [_ | Hd]; [reflexivity |].
  exfalso. apply Hd. rewrite INT_MIN_eq, INT_MAX_eq. lia.
Qed.

Lemma vox_unit (S : SharedBase) : source_vox S = mkPoint 1 1 1 -> vox S = 1.
Proof.
  intros Hv. unfold vox. rewrite Hv. simpl. unfold Rpower.
  replace (1 * 1 * 1) with 1 by lra. now rewrite ln_1, Rmult_0_r, exp_0.
Qed.

(** [vox] is the cube root of the voxel volume *)
Lemma vox_cube (S : SharedBase) :
  0 < p0 (source_vox S) * p1 (source_vox S) * p2 (source_vox S) ->
  vox S * vox S * vox S
  = p0 (source_vox S) * p1 (source_vox S) * p2 (source_vox S).
Proof.
  intros Hv. unfold vox. rewrite <- !Rpower_plus.
  replace (1 / 3 + 1 / 3 + 1 / 3) with 1 by lra.
  now apply Rpower_1.
Qed.

(** a quotient that keeps the distance [d] from the values at which [round]
    steps is rounded like every value within [d] of it *)
Lemma round_stable (n : Z) (x d : R) :
  0 <= d < x -> (0 <= n <= INT_MAX)%Z ->
  IZR n + d <= x + 1 / 2 < IZR n + 1 - d ->
  forall q, Rabs (q - x) <= d -> round q = Ok n.
Proof.
  intros Hd Hn Hx q Hq.
  assert (- d <= q - x <= d) as Hq'.
  { split.
    - pose proof (Rle_abs (- (q - x))) as Ha. rewrite Rabs_Ropp in Ha. lra.
    - pose proof (Rle_abs (q - x)). lra. }
  apply round_eq; [lra | exact Hn | lra].
Qed.

Section SharedBase_properties.

Context `{Scalar R} `{Scalar bool} `{Scalar Z}.
Variable NAN : R.
Variable default_ratio : Z.
Variable parse_floats : string -> list R.

Local Abbreviation SharedBase_new :=
  (Tracking.SharedBase_new NAN default_ratio parse_floats).

Tactic Notation "split_set" ident(E) ident(q) :=
  match goal with
  | H : context [@Properties_set ?T ?I ?v ?k ?p] |- _ =>
      destruct (@Properties_set T I v k p) as [? q] eqn:E;
      apply Properties_set_spec in E; destruct E as [-> E];
      cbv beta iota zeta in H
  end.

(** C10: a [SharedBase] constructed from a properties map takes [threshold]
    from the key "threshold", 0.1 without it, and [init_threshold] from the
    key "init_threshold", twice the threshold in effect without it; with
    neither key the two are 0.1 and 0.2. *)
Theorem SharedBase_new_thresholds vox name (ps : Properties) (S : SharedBase) :
  SharedBase_new vox name ps = Ok S ->
  threshold S = match ps !! "threshold" with Some s => to s | None => 1 / 10 end
  /\ init_threshold S =
       match ps !! "init_threshold" with
       | Some s => to s
       | None => 2 * threshold S
       end
  /\ (ps !! "threshold" = None -> ps !! "init_threshold" = None ->
      threshold S = 1 / 10 /\ init_threshold S = 2 / 10).
Proof.
  unfold Tracking.SharedBase_new. intros HS. cbv beta iota zeta in HS.
  split_set E1 q1. split_set E2 q2. split_set E3 q3. split_set E4 q4.
  split_set E5 q5. split_set E6 q6.
  assert (Hi : (<["source" := name]> q4) !! "init_threshold"
               = ps !! "init_threshold").
  { rewrite lookup_insert_ne by discriminate.
    rewrite E4, E3, E2, E1 by discriminate. reflexivity. }
  rewrite Hi in HS.
  assert (threshold S
          = match ps !! "threshold" with Some s => to s | None => 1 / 10 end
          /\ init_threshold S
             = match ps !! "init_threshold" with
               | Some s => to s
               | None => 2 * threshold S
               end) as [Ht Hit].
  { destruct (q6 !! "init_direction") as [s |].
    - destruct (parse_floats s) as [| v0 [| v1 [| v2 [| ? ?]]]];
        simpl in HS; try discriminate.
      injection HS as <-. simpl. split; [reflexivity |].
      destruct (ps !! "init_threshold"); reflexivity.
    - simpl in HS. injection HS as <-. simpl. split; [reflexivity |].
      destruct (ps !! "init_threshold"); reflexivity. }
  split; [exact Ht | split; [exact Hit |]].
  intros Hn1 Hn2. rewrite Hn1 in Ht. rewrite Hn2 in Hit.
  split; [exact Ht | rewrite Hit, Ht; lra].
Qed.

(** C4, as the code has it: after [set_step_size], [cos_max_angle] is the
    cosine of [max_angle] when [rk4] is not set; when it is set, [max_angle]
    is pi and [cos_max_angle] is 0, and it is the pair kept for the
    integrator that satisfies [cos_max_angle_rk4 = cos (max_angle_rk4)]. *)
Theorem set_step_size_cos_max_angle (S S' : SharedBase) (stepsize : R) :
  set_step_size S stepsize = Ok S' ->
  (rk4 S = false -> cos_max_angle S' = cos (max_angle S'))
  /\ (rk4 S = true ->
      max_angle S' = PI /\ cos_max_angle S' = 0
      /\ cos_max_angle_rk4 S' = cos (max_angle_rk4 S')).
Proof.
  unfold set_step_size. intros HS. cbv beta iota zeta in HS.
  split_set E1 q1. split_set E2 q2.
  destruct (round _) as [n1 | |]; simpl in HS; try discriminate.
  destruct (int_add n1 1) as [n1' | |]; simpl in HS; try discriminate.
  split_set E3 q3.
  destruct (round _) as [n2 | |]; simpl in HS; try discriminate.
  destruct (int_add n2 1) as [n2' | |]; simpl in HS; try discriminate.
  split_set E4 q4.
  destruct (rk4 S); injection HS as <-; simpl; split;
    intros; try discriminate; auto.
Qed.

Lemma Properties_set_fst {T : Type} `{Scalar T} (v : T) k (p : Properties) :
  (Properties_set v k p).1 = effective v k p.
Proof. unfold Properties_set, effective. now destruct (p !! k). Qed.

Lemma Properties_set_snd_ne {T : Type} `{Scalar T} (v : T) k k' (p : Properties) :
  k' ≠ k -> (Properties_set v k p).2 !! k' = p !! k'.
Proof.
  intros Hk. unfold Properties_set. destruct (p !! k); simpl; [reflexivity |].
  now rewrite lookup_insert_ne.
Qed.

Lemma Properties_set_pair {T : Type} `{Scalar T} (v : T) k (p : Properties) :
  Properties_set v k p = (effective v k p, (Properties_set v k p).2).
Proof. rewrite <- Properties_set_fst. now destruct (Properties_set v k p). Qed.

(** [set_step_size] returns as soon as the two rounded path lengths fit an
    [int]; the members it assigns. *)
Lemma set_step_size_Ok (S : SharedBase) (r : R) (n m : Z) :
  let st := effective (r * vox S) "step_size" (properties S) in
  round (effective (100 * vox S) "max_dist" (properties S) / st) = Ok n ->
  round (effective (5 * vox S) "min_dist" (properties S) / st) = Ok m ->
  (0 <= n < INT_MAX)%Z -> (0 <= m < INT_MAX)%Z ->
  exists S' a,
    set_step_size S r = Ok S'
    /\ step_size S' = st
    /\ max_num_points S' = (n + 1)%Z
    /\ min_num_points S' = Z.max 2 (m + 1)
    /\ (rk4 S = false -> max_angle S' = a /\ cos_max_angle S' = cos a)
    /\ (rk4 S = true ->
        max_angle S' = PI /\ cos_max_angle S' = 0
        /\ max_angle_rk4 S' = a /\ cos_max_angle_rk4 S' = cos a).
Proof.
  intros st Hn Hm Hnr Hmr. rewrite INT_MAX_eq in Hnr, Hmr.
  unfold set_step_size.
  rewrite (Properties_set_pair _ "step_size"). cbv beta iota zeta.
  fold st.
  set (q1 := if decide (1 < downsampler_ratio S)%Z then _ else _).
  assert (Hq1 : forall k, k ≠ "step_size" -> k ≠ "output_step_size" ->
                          q1 !! k = properties S !! k).
  { intros k Ha Hb. unfold q1. destruct (decide _).
    - rewrite lookup_insert_ne by congruence.
      now rewrite Properties_set_snd_ne.
    - now rewrite Properties_set_snd_ne. }
  rewrite (Properties_set_pair _ "max_dist"). cbv beta iota zeta.
  assert (He1 : effective (100 * vox S) "max_dist" q1
                = effective (100 * vox S) "max_dist" (properties S)).
  { unfold effective. now rewrite Hq1 by discriminate. }
  rewrite He1, Hn. simpl.
  rewrite int_add_Ok by (rewrite INT_MIN_eq, INT_MAX_eq; lia). simpl.
  rewrite (Properties_set_pair _ "min_dist"). cbv beta iota zeta.
  assert (He2 : effective (5 * vox S) "min_dist"
                  (Properties_set (100 * vox S) "max_dist" q1).2
                = effective (5 * vox S) "min_dist" (properties S)).
  { unfold effective. rewrite Properties_set_snd_ne by discriminate.
    now rewrite Hq1 by discriminate. }
  rewrite He2, Hm. simpl.
  rewrite int_add_Ok by (rewrite INT_MIN_eq, INT_MAX_eq; lia). simpl.
  rewrite (Properties_set_pair _ "max_angle"). cbv beta iota zeta.
  assert (Hsz1 : size_t_of (n + 1) = (n + 1)%Z).
  { unfold size_t_of. apply Z.mod_small. lia. }
  assert (Hsz2 : size_t_of (Z.max 2 (m + 1)) = Z.max 2 (m + 1)).
  { unfold size_t_of. apply Z.mod_small. lia. }
  destruct (rk4 S); eexists _, _; (split; [reflexivity |]); simpl;
    rewrite Hsz1, Hsz2;
    (split; [reflexivity | split; [reflexivity | split; [reflexivity |]]]);
    (split; intros Hrk; [try congruence | try congruence]);
    repeat split; reflexivity.
Qed.

(** C5, as the code has it: when the properties hold none of the keys
    "step_size", "max_dist" and "min_dist", the voxel sizes are positive, and
    [100 / r] and [5 / r] are rounded to [n] and [m] at a relative distance
    of at least 2^-20 from the values where [round] steps,
    [set_step_size r] returns with [step_size = r * vox], which is positive,
    [vox] being the cube root of the voxel volume,
    [max_num_points = n + 1] and [min_num_points = max (2, m + 1)], where
    [n] and [m] are the roundings of the quotients of the path lengths by
    the step size, and of every value within that distance of them; for
    voxels of 1 mm and [r = 0.1] these are 0.1, 1001 and 51. *)
Theorem set_step_size_lengths (S : SharedBase) (r : R) (n m : Z) :
  properties S !! "step_size" = None ->
  properties S !! "max_dist" = None ->
  properties S !! "min_dist" = None ->
  0 < p0 (source_vox S) -> 0 < p1 (source_vox S) -> 0 < p2 (source_vox S) ->
  0 < r ->
  (0 <= n < INT_MAX)%Z -> (0 <= m < INT_MAX)%Z ->
  IZR n + 100 / r / 2 ^ 20 <= 100 / r + 1 / 2
    < IZR n + 1 - 100 / r / 2 ^ 20 ->
  IZR m + 5 / r / 2 ^ 20 <= 5 / r + 1 / 2 < IZR m + 1 - 5 / r / 2 ^ 20 ->
  exists S',
    set_step_size S r = Ok S'
    /\ step_size S' = r * vox S /\ 0 < step_size S'
    /\ vox S * vox S * vox S
       = p0 (source_vox S) * p1 (source_vox S) * p2 (source_vox S)
    /\ max_num_points S' = (n + 1)%Z
    /\ min_num_points S' = Z.max 2 (m + 1)
    /\ (forall q,
          Rabs (q - 100 * vox S / step_size S') <= 100 / r / 2 ^ 20 ->
          round q = Ok n)
    /\ (forall q,
          Rabs (q - 5 * vox S / step_size S') <= 5 / r / 2 ^ 20 ->
          round q = Ok m)
    /\ (source_vox S = mkPoint 1 1 1 -> r = 1 / 10 ->
        step_size S' = 1 / 10 /\ max_num_points S' = 1001%Z
        /\ min_num_points S' = 51%Z).
Proof.
  intros Hk1 Hk2 Hk3 Hv0 Hv1 Hv2 Hr Hnr Hmr Hn Hm.
  pose proof (vox_pos S) as Hvox.
  assert (Hstep : 0 < r * vox S) by (apply Rmult_lt_0_compat; assumption).
  assert (Hq1 : 100 * vox S / (r * vox S) = 100 / r) by (field; lra).
  assert (Hq2 : 5 * vox S / (r * vox S) = 5 / r) by (field; lra).
  assert (H100 : 0 < 100 / r) by (apply Rdiv_lt_0_compat; lra).
  assert (H5 : 0 < 5 / r) by (apply Rdiv_lt_0_compat; lra).
  assert (Hp : 0 < 2 ^ 20) by (apply pow_lt; lra).
  assert (Hp1 : 1 < 2 ^ 20) by (simpl; lra).
  assert (Hd1 : 0 <= 100 / r / 2 ^ 20 < 100 / r).
  { split.
    - apply Rlt_le, Rdiv_lt_0_compat; assumption.
    - apply Rmult_lt_reg_r with (2 ^ 20); [exact Hp |].
      unfold Rdiv at 1. rewrite Rmult_assoc, Rinv_l by lra. nra. }
  assert (Hd2 : 0 <= 5 / r / 2 ^ 20 < 5 / r).
  { split.
    - apply Rlt_le, Rdiv_lt_0_compat; assumption.
    - apply Rmult_lt_reg_r with (2 ^ 20); [exact Hp |].
      unfold Rdiv at 1. rewrite Rmult_assoc, Rinv_l by lra. nra. }
  assert (Hrn : forall q, Rabs (q - 100 / r) <= 100 / r / 2 ^ 20 ->
                          round q = Ok n).
  { apply round_stable; [exact Hd1 | lia | exact Hn]. }
  assert (Hrm : forall q, Rabs (q - 5 / r) <= 5 / r / 2 ^ 20 ->
                          round q = Ok m).
  { apply round_stable; [exact Hd2 | lia | exact Hm]. }
  destruct (set_step_size_Ok S r n m) as (S' & a & HS & Hst & Hmax & Hmin & _).
  { unfold effective. rewrite Hk1, Hk2, Hq1. apply Hrn.
    rewrite Rminus_diag, Rabs_R0. tauto. }
  { unfold effective. rewrite Hk1, Hk3, Hq2. apply Hrm.
    rewrite Rminus_diag, Rabs_R0. tauto. }
  { exact Hnr. }
  { exact Hmr. }
  unfold effective in Hst. rewrite Hk1 in Hst.
  exists S'. rewrite Hst, Hq1, Hq2.
  split; [exact HS |]. split; [reflexivity |]. split; [exact Hstep |].
  split.
  { apply vox_cube. apply Rmult_lt_0_compat;
      [apply Rmult_lt_0_compat |]; assumption. }
  split; [exact Hmax |]. split; [exact Hmin |].
  split; [exact Hrn |]. split; [exact Hrm |].
  intros Hv ->.
  replace (100 / (1 / 10)) with 1000 in Hn by field.
  replace (5 / (1 / 10)) with 50 in Hm by field.
  assert (Hn' : n = 1000%Z).
  { assert (Hup : IZR n < IZR 1001) by (simpl in *; lra).
    assert (Hlo : IZR 999 < IZR n) by (simpl in *; lra).
    apply lt_IZR in Hup, Hlo. lia. }
  assert (Hm' : m = 50%Z).
  { assert (Hup : IZR m < IZR 51) by (simpl in *; lra).
    assert (Hlo : IZR 49 < IZR m) by (simpl in *; lra).
    apply lt_IZR in Hup, Hlo. lia. }
  rewrite Hmax, Hmin, Hn', Hm', (vox_unit S Hv).
  split; [lra | split; reflexivity].
Qed.

(** the constructor returns unless the key "init_direction" is present *)
Lemma SharedBase_new_Ok vox name (ps : Properties) :
  ps !! "init_direction" = None -> exists S, SharedBase_new vox name ps = Ok S.
Proof.
  intros Hk. unfold Tracking.SharedBase_new.
  rewrite (Properties_set_pair _ "threshold"). cbv beta iota zeta.
  rewrite (Properties_set_pair _ "unidirectional"). cbv beta iota zeta.
  rewrite (Properties_set_pair _ "max_num_tracks"). cbv beta iota zeta.
  rewrite (Properties_set_pair _ "rk4"). cbv beta iota zeta.
  rewrite (Properties_set_pair _ "init_threshold"). cbv beta iota zeta.
  rewrite (Properties_set_pair _ "max_num_attempts"). cbv beta iota zeta.
  repeat first [ rewrite Properties_set_snd_ne by discriminate
               | rewrite lookup_insert_ne by discriminate ].
  rewrite Hk. simpl. eexists. reflexivity.
Qed.

End SharedBase_properties.

Lemma SharedBase_new_thresholds_witness :
  exists S,
    SharedBase_new (H := Example.Scalar_R) (H0 := Example.Scalar_bool)
      (H1 := Example.Scalar_Z) 0 1 Example.parse_floats
      (mkPoint 1 1 1) "dwi.mif" ∅ = Ok S
    /\ threshold S = 1 / 10 /\ init_threshold S = 2 / 10.
Proof.
  destruct (SharedBase_new_Ok (H := Example.Scalar_R)
              (H0 := Example.Scalar_bool) (H1 := Example.Scalar_Z)
              0 1%Z Example.parse_floats (mkPoint 1 1 1) "dwi.mif" ∅)
    as [S HS]; [reflexivity |].
  exists S. split; [exact HS |].
  apply (SharedBase_new_thresholds _ _ _ _ _ _ _ HS); reflexivity.
Defined.

Lemma set_step_size_cos_max_angle_witness :
  exists S',
    set_step_size (H := Example.Scalar_R) (Example.shared false ∅) (1 / 10)
    = Ok S'
    /\ cos_max_angle S' = cos (max_angle S').
Proof.
  destruct (set_step_size_Ok (H := Example.Scalar_R)
              (Example.shared false ∅) (1 / 10) 1000 50)
    as (S' & a & HS & _).
  - unfold effective. simpl. rewrite !lookup_empty, vox_unit by reflexivity.
    replace (100 * 1 / (1 / 10 * 1)) with (IZR 1000) by field.
    apply round_IZR. rewrite INT_MAX_eq. lia.
  - unfold effective. simpl. rewrite !lookup_empty, vox_unit by reflexivity.
    replace (5 * 1 / (1 / 10 * 1)) with (IZR 50) by field.
    apply round_IZR. rewrite INT_MAX_eq. lia.
  - rewrite INT_MAX_eq. lia.
  - rewrite INT_MAX_eq. lia.
  - exists S'. split; [exact HS |].
    apply (set_step_size_cos_max_angle _ _ _ HS). reflexivity.
Defined.

(** with [rk4] set, [cos_max_angle] is 0 and [max_angle] is pi, whose cosine
    is -1 *)
Lemma set_step_size_rk4_counterexample :
  exists S',
    set_step_size (H := Example.Scalar_R) (Example.shared true ∅) (1 / 10)
    = Ok S'
    /\ cos_max_angle S' <> cos (max_angle S').
Proof.
  destruct (set_step_size_Ok (H := Example.Scalar_R)
              (Example.shared true ∅) (1 / 10) 1000 50)
    as (S' & a & HS & _ & _ & _ & _ & Hrk).
  - unfold effective. simpl. rewrite !lookup_empty, vox_unit by reflexivity.
    replace (100 * 1 / (1 / 10 * 1)) with (IZR 1000) by field.
    apply round_IZR. rewrite INT_MAX_eq. lia.
  - unfold effective. simpl. rewrite !lookup_empty, vox_unit by reflexivity.
    replace (5 * 1 / (1 / 10 * 1)) with (IZR 50) by field.
    apply round_IZR. rewrite INT_MAX_eq. lia.
  - rewrite INT_MAX_eq. lia.
  - rewrite INT_MAX_eq. lia.
  - exists S'. split; [exact HS |].
    destruct (Hrk eq_refl) as (Hm & Hc & _).
    rewrite Hm, Hc, cos_PI. lra.
Qed.

Lemma set_step_size_lengths_witness :
  exists S',
    set_step_size (H := Example.Scalar_R) (Example.shared false ∅) (1 / 10)
    = Ok S'
    /\ step_size S' = 1 / 10 /\ max_num_points S' = 1001%Z
    /\ min_num_points S' = 51%Z.
Proof.
  destruct (set_step_size_lengths (H := Example.Scalar_R)
              (Example.shared false ∅) (1 / 10) 1000 50)
    as (S' & HS & _ & _ & _ & _ & _ & _ & _ & Hscen);
    try reflexivity; try (rewrite INT_MAX_eq; lia); simpl; try lra.
  exists S'. split; [exact HS |]. apply Hscen; reflexivity.
Defined.

(** a step size given in the properties is the one used *)
Lemma set_step_size_key_counterexample :
  exists S',
    set_step_size (H := Example.Scalar_R)
      (Example.shared false {["step_size" := "7"]}) (1 / 10) = Ok S'
    /\ step_size S' = 7
    /\ step_size S'
       <> 1 / 10 * vox (Example.shared false {["step_size" := "7"]}).
Proof.
  assert (Hk1 : ({["step_size" := "7"]} : Properties) !! "step_size"
                = Some "7") by reflexivity.
  assert (Hk2 : ({["step_size" := "7"]} : Properties) !! "max_dist" = None)
    by reflexivity.
  assert (Hk3 : ({["step_size" := "7"]} : Properties) !! "min_dist" = None)
    by reflexivity.
  destruct (set_step_size_Ok (H := Example.Scalar_R)
              (Example.shared false {["step_size" := "7"]}) (1 / 10) 14 1)
    as (S' & a & HS & Hst & _).
  - unfold effective. simpl. rewrite Hk1, Hk2, vox_unit by reflexivity.
    simpl. apply round_eq; [lra | rewrite INT_MAX_eq; lia | lra].
  - unfold effective. simpl. rewrite Hk1, Hk3, vox_unit by reflexivity.
    simpl. apply round_eq; [lra | rewrite INT_MAX_eq; lia | lra].
  - rewrite INT_MAX_eq. lia.
  - rewrite INT_MAX_eq. lia.
  - exists S'. split; [exact HS |]. unfold effective in Hst. simpl in Hst.
    rewrite Hk1 in Hst. simpl in Hst.
    rewrite Hst, vox_unit by reflexivity. split; [reflexivity | lra].
Qed.

(** *** Further properties of the configuration *)

Section SharedBase_more.

Context `{Scalar R} `{Scalar bool} `{Scalar Z}.
Variable NAN : R.
Variable default_ratio : Z.
Variable parse_floats : string -> list R.

Local Abbreviation SharedBase_new :=
  (Tracking.SharedBase_new NAN default_ratio parse_floats).

(** X10: the members a constructed [SharedBase] takes from the properties:
    [max_num_tracks], [unidirectional] and [rk4] from the keys of their
    names, 0 and false without them; [max_num_attempts] from its key, and
    100 times [max_num_tracks] as a [size_t] without it; the name of the
    image is recorded under "source", and the voxel sizes are those of the
    image. *)
Theorem SharedBase_new_members vox name (ps : Properties) (S : SharedBase) :
  SharedBase_new vox name ps = Ok S ->
  max_num_tracks S = effective 0%Z "max_num_tracks" ps
  /\ max_num_attempts S
     = effective ((100 * max_num_tracks S) mod 2 ^ 64)%Z "max_num_attempts" ps
  /\ unidirectional S = effective false "unidirectional" ps
  /\ rk4 S = effective false "rk4" ps
  /\ properties S !! "source" = Some name
  /\ source_vox S = vox.
Proof.
  unfold Tracking.SharedBase_new. intros HS.
  rewrite (Properties_set_pair _ "threshold") in HS.
  cbv beta iota zeta in HS.
  rewrite (Properties_set_pair _ "unidirectional") in HS.
  cbv beta iota zeta in HS.
  rewrite (Properties_set_pair _ "max_num_tracks") in HS.
  cbv beta iota zeta in HS.
  rewrite (Properties_set_pair _ "rk4") in HS. cbv beta iota zeta in HS.
  rewrite (Properties_set_pair _ "init_threshold") in HS.
  cbv beta iota zeta in HS.
  rewrite (Properties_set_pair _ "max_num_attempts") in HS.
  cbv beta iota zeta in HS.
  set (q1 := (Properties_set (1 / 10) "threshold" ps).2) in HS.
  set (q2 := (Properties_set false "unidirectional" q1).2) in HS.
  set (q3 := (Properties_set 0%Z "max_num_tracks" q2).2) in HS.
  set (q4 := (Properties_set false "rk4" q3).2) in HS.
  assert (Hq1 : forall k, k ≠ "threshold" -> q1 !! k = ps !! k).
  { intros k Hk. unfold q1. now rewrite Properties_set_snd_ne. }
  assert (Hq2 : forall k, k ≠ "unidirectional" -> q2 !! k = q1 !! k).
  { intros k Hk. unfold q2. now rewrite Properties_set_snd_ne. }
  assert (Hq3 : forall k, k ≠ "max_num_tracks" -> q3 !! k = q2 !! k).
  { intros k Hk. unfold q3. now rewrite Properties_set_snd_ne. }
  assert (Hq4 : forall k, k ≠ "rk4" -> q4 !! k = q3 !! k).
  { intros k Hk. unfold q4. now rewrite Properties_set_snd_ne. }
  assert (Eu : effective false "unidirectional" q1
               = effective false "unidirectional" ps).
  { unfold effective. now rewrite Hq1 by discriminate. }
  assert (Et : effective 0%Z "max_num_tracks" q2
               = effective 0%Z "max_num_tracks" ps).
  { unfold effective. now rewrite Hq2, Hq1 by discriminate. }
  assert (Er : effective false "rk4" q3 = effective false "rk4" ps).
  { unfold effective. now rewrite Hq3, Hq2, Hq1 by discriminate. }
  set (q5 := (Properties_set _ "init_threshold" (<["source" := name]> q4)).2)
    in HS.
  assert (Ea : forall v : Z,
             effective v "max_num_attempts" q5
             = effective v "max_num_attempts" ps).
  { intros v. unfold effective, q5.
    rewrite Properties_set_snd_ne by discriminate.
    rewrite lookup_insert_ne by discriminate.
    now rewrite Hq4, Hq3, Hq2, Hq1 by discriminate. }
  set (q6 := (Properties_set _ "max_num_attempts" q5).2) in HS.
  assert (Es : q6 !! "source" = Some name).
  { unfold q6, q5. rewrite !Properties_set_snd_ne by discriminate.
    apply lookup_insert_eq. }
  rewrite Eu, Et, Er, Ea in HS.
  destruct (match q6 !! "init_direction" with Some _ => _ | None => _ end)
    as [d | |]; cbn [mbind result_bind] in HS; try discriminate.
  injection HS as <-. cbn. auto 7.
Qed.

(** X11: with the key "init_direction", the constructor returns exactly
    when its value parses to three numbers, and [init_dir] is their vector,
    normalised; otherwise it throws. *)
Theorem SharedBase_new_init_direction vox name (ps : Properties) (s : string) :
  ps !! "init_direction" = Some s ->
  (forall v0 v1 v2,
     parse_floats s = [v0; v1; v2] ->
     exists S,
       SharedBase_new vox name ps = Ok S
       /\ init_dir S = normalise (mkPoint v0 v1 v2))
  /\ (length (parse_floats s) <> 3%nat ->
      SharedBase_new vox name ps
      = Exception ("invalid initial direction " ++ s)).
Proof.
  intros Hk. unfold Tracking.SharedBase_new.
  rewrite (Properties_set_pair _ "threshold"). cbv beta iota zeta.
  rewrite (Properties_set_pair _ "unidirectional"). cbv beta iota zeta.
  rewrite (Properties_set_pair _ "max_num_tracks"). cbv beta iota zeta.
  rewrite (Properties_set_pair _ "rk4"). cbv beta iota zeta.
  rewrite (Properties_set_pair _ "init_threshold"). cbv beta iota zeta.
  rewrite (Properties_set_pair _ "max_num_attempts"). cbv beta iota zeta.
  repeat first [ rewrite Properties_set_snd_ne by discriminate
               | rewrite lookup_insert_ne by discriminate ].
  rewrite Hk. split.
  - intros v0 v1 v2 ->. cbn [mbind result_bind]. eexists.
    split; reflexivity.
  - intros Hl.
    destruct (parse_floats s) as [| v0 [| v1 [| v2 [| ? ?]]]];
      simpl in Hl; try lia; reflexivity.
Qed.

(** X12: what [set_step_size] leaves besides the numbers of points:
    [max_angle] (kept for the integrator when rk4 is set) is the value of
    the key "max_angle", 90 times the step size over the voxel size without
    it, in degrees, converted to radians, which without the keys
    "step_size" and "max_angle" is the relative step size times a right
    angle; with a downsampling ratio above 1 the properties record the step
    size times the ratio under "output_step_size", which is left as it was
    otherwise. *)
Theorem set_step_size_max_angle (S S' : SharedBase) (r : R) :
  set_step_size S r = Ok S' ->
  let st := effective (r * vox S) "step_size" (properties S) in
  let a := effective (90 * st / vox S) "max_angle" (properties S)
           * (PI / 180) in
  step_size S' = st
  /\ (if rk4 S then max_angle_rk4 S' = a /\ max_angle S' = PI
      else max_angle S' = a /\ max_angle_rk4 S' = max_angle_rk4 S)
  /\ (properties S !! "step_size" = None ->
      properties S !! "max_angle" = None -> a = r * (PI / 2))
  /\ properties S' !! "output_step_size"
     = (if decide (1 < downsampler_ratio S)%Z
        then Some (str (st * IZR (downsampler_ratio S)))
        else properties S !! "output_step_size").
Proof.
  intros HS st a. unfold set_step_size in HS.
  rewrite (Properties_set_pair _ "step_size") in HS.
  cbv beta iota zeta in HS. fold st in HS.
  set (q1 := if decide (1 < downsampler_ratio S)%Z then _ else _) in HS.
  rewrite (Properties_set_pair _ "max_dist") in HS.
  cbv beta iota zeta in HS.
  destruct (round _) as [n | |]; cbn [mbind result_bind] in HS;
    try discriminate.
  destruct (int_add n 1) as [n' | |]; cbn [mbind result_bind] in HS;
    try discriminate.
  rewrite (Properties_set_pair _ "min_dist") in HS.
  cbv beta iota zeta in HS.
  destruct (round _) as [k | |]; cbn [mbind result_bind] in HS;
    try discriminate.
  destruct (int_add k 1) as [k' | |]; cbn [mbind result_bind] in HS;
    try discriminate.
  rewrite (Properties_set_pair _ "max_angle") in HS.
  cbv beta iota zeta in HS.
  set (q2 := (Properties_set (100 * vox S) "max_dist" q1).2) in HS.
  set (q3 := (Properties_set (5 * vox S) "min_dist" q2).2) in HS.
  assert (Hq1 : forall key, key ≠ "step_size" -> key ≠ "output_step_size" ->
                            q1 !! key = properties S !! key).
  { intros key Ha Hb. unfold q1. destruct (decide _).
    - rewrite lookup_insert_ne by congruence.
      now rewrite Properties_set_snd_ne.
    - now rewrite Properties_set_snd_ne. }
  assert (Hq3 : forall key, key ≠ "max_dist" -> key ≠ "min_dist" ->
                            q3 !! key = q1 !! key).
  { intros key Ha Hb. unfold q3, q2.
    now rewrite !Properties_set_snd_ne by assumption. }
  assert (Ea : effective (90 * st / vox S) "max_angle" q3
               = effective (90 * st / vox S) "max_angle" (properties S)).
  { unfold effective. now rewrite Hq3, Hq1 by discriminate. }
  rewrite Ea in HS. fold a in HS.
  assert (Ho : (Properties_set (90 * st / vox S) "max_angle" q3).2
                 !! "output_step_size"
               = (if decide (1 < downsampler_ratio S)%Z
                  then Some (str (st * IZR (downsampler_ratio S)))
                  else properties S !! "output_step_size")).
  { rewrite Properties_set_snd_ne, Hq3 by discriminate. unfold q1.
    destruct (decide _).
    - apply lookup_insert_eq.
    - now rewrite Properties_set_snd_ne by discriminate. }
  assert (Hdef : properties S !! "step_size" = None ->
                 properties S !! "max_angle" = None -> a = r * (PI / 2)).
  { intros Hs Hm. unfold a, st, effective. rewrite Hs, Hm.
    pose proof (vox_pos S). field. lra. }
  destruct (rk4 S); injection HS as <-; cbn; auto.
Qed.

End SharedBase_more.

Lemma SharedBase_new_members_witness :
  exists S,
    SharedBase_new (H := Example.Scalar_R) (H0 := Example.Scalar_bool)
      (H1 := Example.Scalar_Z) 0 1 Example.parse_floats
      (mkPoint 1 1 1) "dwi.mif" ∅ = Ok S
    /\ max_num_tracks S = 0%Z /\ max_num_attempts S = 0%Z
    /\ properties S !! "source" = Some "dwi.mif"%string.
Proof.
  destruct (SharedBase_new_Ok (H := Example.Scalar_R)
              (H0 := Example.Scalar_bool) (H1 := Example.Scalar_Z)
              0 1%Z Example.parse_floats (mkPoint 1 1 1) "dwi.mif" ∅)
    as [S HS]; [reflexivity |].
  exists S. split; [exact HS |].
  destruct (SharedBase_new_members _ _ _ _ _ _ _ HS)
    as (Ht & Ha & _ & _ & Hs & _).
  split; [exact Ht |]. split; [| exact Hs].
  rewrite Ha, Ht. reflexivity.
Defined.

Lemma SharedBase_new_init_direction_witness :
  exists S,
    SharedBase_new (H := Example.Scalar_R) (H0 := Example.Scalar_bool)
      (H1 := Example.Scalar_Z) 0 1 Example.parse_floats
      (mkPoint 1 1 1) "dwi.mif" {["init_direction" := "1,0,0"]} = Ok S
    /\ init_dir S = normalise (mkPoint 1 0 0).
Proof.
  assert (Hk : ({["init_direction" := "1,0,0"]} : Properties)
                 !! "init_direction" = Some "1,0,0"%string) by reflexivity.
  destruct (SharedBase_new_init_direction (H := Example.Scalar_R)
              (H0 := Example.Scalar_bool) (H1 := Example.Scalar_Z)
              0 1%Z Example.parse_floats (mkPoint 1 1 1) "dwi.mif"
              {["init_direction" := "1,0,0"]} "1,0,0" Hk) as [Hok _].
  exact (Hok 1 0 0 eq_refl).
Defined.

Lemma set_step_size_max_angle_witness :
  exists S',
    set_step_size (H := Example.Scalar_R) (Example.shared false ∅) (1 / 10)
    = Ok S'
    /\ step_size S' = 1 / 10 /\ max_angle S' = 1 / 10 * (PI / 2).
Proof.
  destruct (set_step_size_Ok (H := Example.Scalar_R)
              (Example.shared false ∅) (1 / 10) 1000 50)
    as (S' & a & HS & _).
  - unfold effective. simpl. rewrite !lookup_empty, vox_unit by reflexivity.
    replace (100 * 1 / (1 / 10 * 1)) with (IZR 1000) by field.
    apply round_IZR. rewrite INT_MAX_eq. lia.
  - unfold effective. simpl. rewrite !lookup_empty, vox_unit by reflexivity.
    replace (5 * 1 / (1 / 10 * 1)) with (IZR 50) by field.
    apply round_IZR. rewrite INT_MAX_eq. lia.
  - rewrite INT_MAX_eq. lia.
  - rewrite INT_MAX_eq. lia.
  - exists S'. split; [exact HS |].
    destruct (set_step_size_max_angle _ _ _ HS) as (Hst & Hang & Hdef & _).
    cbn [rk4 Example.shared] in Hang. destruct Hang as [Hang _].
    split.
    + rewrite Hst. unfold effective. cbn [properties Example.shared].
      rewrite lookup_empty, vox_unit by reflexivity. lra.
    + rewrite Hang. apply Hdef; reflexivity.
Defined.

End TrackingProperties.

(** ** The FACT method *)

Module FACTProperties.

Import Tracking FACT.
Open Scope R_scope.

Section FACT_properties.

Variable Matrix : Type.
Variable get_data : Point R -> option (list R).
Variable dwi2tensor : Matrix -> list R -> list R.
Variable tensor2FA : list R -> R.
Variable eig_sorted : Matrix3 -> Point R * Matrix3.
Variable S : Shared Matrix.

Local Abbreviation get_EV := (FACT.get_EV eig_sorted).
Local Abbreviation do_init := (FACT.do_init Matrix dwi2tensor tensor2FA eig_sorted S).
Local Abbreviation do_next := (FACT.do_next Matrix dwi2tensor tensor2FA eig_sorted S).
Local Abbreviation init := (FACT.init Matrix get_data dwi2tensor tensor2FA eig_sorted S).
Local Abbreviation next := (FACT.next Matrix get_data dwi2tensor tensor2FA eig_sorted S).

(** [get_EV] changes the direction and the scratch members only *)
Lemma get_EV_frame (m m1 : Method) :
  get_EV m = Ok m1 -> pos m1 = pos m /\ values m1 = values m.
Proof.
  unfold FACT.get_EV. intros HE.
  destruct (value_at (values m) 0); simpl in HE; try discriminate.
  destruct (value_at (values m) 1); simpl in HE; try discriminate.
  destruct (value_at (values m) 2); simpl in HE; try discriminate.
  destruct (value_at (values m) 3); simpl in HE; try discriminate.
  destruct (value_at (values m) 4); simpl in HE; try discriminate.
  destruct (value_at (values m) 5); simpl in HE; try discriminate.
  destruct (eig_sorted _) as [ev' V']. injection HE as <-. auto.
Qed.

(** [get_EV] returns when the six coefficients of the tensor are there *)
Lemma get_EV_Ok (m : Method) :
  (6 <= length (values m))%nat -> exists m1, get_EV m = Ok m1.
Proof.
  intros Hl. unfold FACT.get_EV, value_at.
  destruct (values m) as [| v0 [| v1 [| v2 [| v3 [| v4 [| v5 vs]]]]]];
    simpl in Hl; try lia.
  simpl. destruct (eig_sorted _) as [ev' V']. eexists; reflexivity.
Qed.

Lemma get_EV_not_false (m : Method) (r : bool * Method) :
  (get_EV m ≫= fun m => Ok (true, m)) = Ok r -> r.1 = true.
Proof.
  destruct (get_EV m); simpl; intros HE; try discriminate.
  now injection HE as <-.
Qed.

(** C1: a step that samples the image and passes the anisotropy threshold
    returns HIGH_CURVATURE exactly when the absolute value of the dot
    product of the previous and the new direction is below [cos_max_angle];
    otherwise the new direction is negated when the dot product is
    negative, which leaves its dot product with the previous direction
    non-negative, the position moves by the direction times [step_size] and
    CONTINUE is returned. *)
Theorem next_curvature (m m1 : Method) (vs : list R) :
  get_data (pos m) = Some vs ->
  ~ tensor2FA (dwi2tensor (binv S) vs) < threshold (base S) ->
  get_EV (set_values m (dwi2tensor (binv S) vs)) = Ok m1 ->
  ((exists m', next m = Ok (HIGH_CURVATURE, m'))
   <-> Rabs (dot (dir m) (dir m1)) < cos_max_angle (base S))
  /\ (~ Rabs (dot (dir m) (dir m1)) < cos_max_angle (base S) ->
      exists m',
        next m = Ok (CONTINUE, m')
        /\ dir m' = (if Rlt_dec (dot (dir m) (dir m1)) 0
                     then neg (dir m1) else dir m1)
        /\ 0 <= dot (dir m) (dir m')
        /\ pos m' = add (pos m) (scale (dir m') (step_size (base S)))).
Proof.
  intros Hd Hfa HE.
  destruct (get_EV_frame _ _ HE) as [Hpos _]. simpl in Hpos.
  unfold FACT.next, FACT.do_next. rewrite Hd. cbv zeta.
  change (set_values (set_values m vs)
            (dwi2tensor (binv S) (values (set_values m vs))))
    with (set_values m (dwi2tensor (binv S) vs)).
  change (values (set_values m (dwi2tensor (binv S) vs)))
    with (dwi2tensor (binv S) vs).
  destruct (Rlt_dec _ _) as [? | _]; [tauto |].
  rewrite HE. simpl.
  destruct (Rlt_dec (Rabs (dot (dir m) (dir m1))) (cos_max_angle (base S)))
    as [Hc | Hc].
  - split; [| tauto]. split; [auto | eexists; reflexivity].
  - split.
    + split; [| tauto]. intros [m' Hm']. discriminate.
    + intros _. eexists. split; [reflexivity |].
      destruct (Rlt_dec (dot (dir m) (dir m1)) 0) as [Hneg | Hneg]; simpl.
      * split; [reflexivity |]. split; [| now rewrite Hpos].
        unfold dot, neg in *. simpl. lra.
      * split; [reflexivity |]. split; [lra | now rewrite Hpos].
Qed.

(** C9: [init] returns false exactly when the seed position cannot be
    sampled or the anisotropy of the tensor fitted there is below
    [init_threshold]; otherwise it returns true, the direction being the
    third column of the eigenvector matrix of the tensor, sorted by
    eigenvalue, and the position being kept. [next] returns EXIT_IMAGE when
    the position cannot be sampled, and BAD_SIGNAL when the anisotropy is
    below [threshold]. *)
Theorem init_next_failures (m : Method) :
  ((exists m', init m = Ok (false, m'))
   <-> get_data (pos m) = None
       \/ exists vs, get_data (pos m) = Some vs
            /\ tensor2FA (dwi2tensor (binv S) vs) < init_threshold (base S))
  /\ (forall vs v0 v1 v2 v3 v4 v5 rest,
        get_data (pos m) = Some vs ->
        ~ tensor2FA (dwi2tensor (binv S) vs) < init_threshold (base S) ->
        dwi2tensor (binv S) vs = v0 :: v1 :: v2 :: v3 :: v4 :: v5 :: rest ->
        exists m' ev' V',
          init m = Ok (true, m')
          /\ eig_sorted (mkPoint (mkPoint v0 v3 v4) (mkPoint v3 v1 v5)
                           (mkPoint v4 v5 v2)) = (ev', V')
          /\ dir m' = mkPoint (p2 (p0 V')) (p2 (p1 V')) (p2 (p2 V'))
          /\ pos m' = pos m
          /\ values m' = dwi2tensor (binv S) vs)
  /\ (get_data (pos m) = None -> next m = Ok (EXIT_IMAGE, m))
  /\ (forall vs,
        get_data (pos m) = Some vs ->
        tensor2FA (dwi2tensor (binv S) vs) < threshold (base S) ->
        next m = Ok (BAD_SIGNAL, set_values m (dwi2tensor (binv S) vs))).
Proof.
  unfold FACT.init, FACT.next, FACT.do_init, FACT.do_next.
  destruct (get_data (pos m)) as [vs |] eqn:Hd; cbv zeta;
    try change (set_values (set_values m vs)
                  (dwi2tensor (binv S) (values (set_values m vs))))
          with (set_values m (dwi2tensor (binv S) vs));
    try change (values (set_values m (dwi2tensor (binv S) vs)))
          with (dwi2tensor (binv S) vs).
  - split; [| split; [| split]].
    + destruct (Rlt_dec _ _) as [Hlt | Hge].
      * split; [| eexists; reflexivity].
        intros _. right. exists vs. auto.
      * split.
        -- intros [m' Hm']. apply get_EV_not_false in Hm'. discriminate.
        -- intros [? | (vs' & [= <-] & Hlt)]; [discriminate | tauto].
    + intros vs' v0 v1 v2 v3 v4 v5 rest [= <-] Hge Ht.
      destruct (Rlt_dec _ _) as [? | _]; [tauto |].
      unfold FACT.get_EV, value_at. cbn [values set_values]. rewrite Ht.
      cbn [lookup list_lookup mbind result_bind]. cbn beta iota.
      destruct (eig_sorted _) as [ev' V'] eqn:Heig.
      cbn [mbind result_bind]. cbn beta iota.
      eexists _, ev', V'. split; [reflexivity |].
      split; [reflexivity |]. cbn. auto.
    + discriminate.
    + intros vs' [= <-] Hlt.
      destruct (Rlt_dec _ _) as [_ | ?]; [reflexivity | tauto].
  - split; [| split; [| split]].
    + split; [auto | eexists; reflexivity].
    + discriminate.
    + reflexivity.
    + discriminate.
Qed.

End FACT_properties.

Lemma next_curvature_witness :
  exists m',
    FACT.next unit Example.get_data Example.dwi2tensor Example.tensor2FA
      Example.eig_sorted Example.fact_shared
      (Example.method (mkPoint 0 0 (-1))) = Ok (CONTINUE, m')
    /\ dir m' = neg (mkPoint 0 0 1)
    /\ pos m' = add (mkPoint 0 0 0) (scale (neg (mkPoint 0 0 1)) 1).
Proof.
  destruct (next_curvature unit Example.get_data Example.dwi2tensor
              Example.tensor2FA Example.eig_sorted Example.fact_shared
              (Example.method (mkPoint 0 0 (-1)))
              {| pos := mkPoint 0 0 0; dir := mkPoint 0 0 1;
                 values := [1; 1; 1; 0; 0; 0];
                 M := mkPoint (mkPoint 1 0 0) (mkPoint 0 1 0) (mkPoint 0 0 1);
                 V := mkPoint (mkPoint 1 0 0) (mkPoint 0 1 0) (mkPoint 0 0 1);
                 ev := mkPoint 1 1 1 |}
              [1; 1; 1; 0; 0; 0] eq_refl)
    as [_ Hc].
  - unfold Example.tensor2FA. simpl. lra.
  - reflexivity.
  - destruct Hc as (m' & Hn & Hdir & _ & Hpos).
    + simpl. unfold dot. simpl. unfold Rabs. destruct (Rcase_abs _); lra.
    + exists m'. split; [exact Hn |]. simpl in Hdir, Hpos.
      destruct (Rlt_dec _ _) as [_ | Hge] in Hdir.
      * rewrite Hpos, Hdir. split; reflexivity.
      * exfalso. apply Hge. unfold dot. simpl. lra.
Defined.

Lemma init_next_failures_witness :
  (exists m',
     FACT.init unit Example.get_data Example.dwi2tensor Example.tensor2FA
       Example.eig_sorted Example.fact_shared
       (Example.method (mkPoint 1 0 0)) = Ok (true, m')
     /\ dir m' = mkPoint 0 0 1 /\ pos m' = mkPoint 0 0 0)
  /\ (exists m',
        FACT.init unit Example.get_data Example.dwi2tensor (fun _ => 0)
          Example.eig_sorted Example.fact_shared
          (Example.method (mkPoint 1 0 0)) = Ok (false, m'))
  /\ FACT.next unit Example.get_data Example.dwi2tensor (fun _ => 0)
       Example.eig_sorted Example.fact_shared
       (Example.method (mkPoint 0 0 1))
     = Ok (BAD_SIGNAL,
           set_values (Example.method (mkPoint 0 0 1)) [1; 1; 1; 0; 0; 0])
  /\ FACT.next unit (fun _ => None) Example.dwi2tensor Example.tensor2FA
       Example.eig_sorted Example.fact_shared (Example.method (mkPoint 0 0 1))
     = Ok (EXIT_IMAGE, Example.method (mkPoint 0 0 1)).
Proof.
  split; [| split; [| split]].
  - destruct (init_next_failures unit Example.get_data Example.dwi2tensor
                Example.tensor2FA Example.eig_sorted Example.fact_shared
                (Example.method (mkPoint 1 0 0)))
      as (_ & Hinit & _).
    destruct (Hinit [1; 1; 1; 0; 0; 0] 1 1 1 0 0 0 [] eq_refl)
      as (m' & ev' & V' & Hm' & Heig & Hdir & Hpos & _).
    + unfold Example.tensor2FA. simpl. lra.
    + reflexivity.
    + exists m'. split; [exact Hm' |].
      unfold Example.eig_sorted in Heig. injection Heig as <- <-.
      split; [exact Hdir | exact Hpos].
  - apply (init_next_failures unit Example.get_data Example.dwi2tensor
             (fun _ => 0) Example.eig_sorted Example.fact_shared
             (Example.method (mkPoint 1 0 0))).
    right. exists [1; 1; 1; 0; 0; 0]. split; [reflexivity |]. simpl. lra.
  - apply (init_next_failures unit Example.get_data Example.dwi2tensor
             (fun _ => 0) Example.eig_sorted Example.fact_shared
             (Example.method (mkPoint 0 0 1))); [reflexivity |].
    simpl. lra.
  - apply (init_next_failures unit (fun _ => None) Example.dwi2tensor
             Example.tensor2FA Example.eig_sorted Example.fact_shared
             (Example.method (mkPoint 0 0 1))).
    reflexivity.
Defined.

(** *** Further properties of the FACT method *)

Section FACT_more.

Variable Matrix : Type.
Variable get_data : Point R -> option (list R).
Variable dwi2tensor : Matrix -> list R -> list R.
Variable tensor2FA : list R -> R.
Variable eig_sorted : Matrix3 -> Point R * Matrix3.
Variable S : Shared Matrix.

Local Abbreviation get_EV := (FACT.get_EV eig_sorted).
Local Abbreviation init := (FACT.init Matrix get_data dwi2tensor tensor2FA eig_sorted S).
Local Abbreviation next := (FACT.next Matrix get_data dwi2tensor tensor2FA eig_sorted S).


(** X8: when the tensor fitted at the position has its six coefficients,
    [next] returns one of EXIT_IMAGE, BAD_SIGNAL, HIGH_CURVATURE and
    CONTINUE, and the position is left where it was unless CONTINUE is
    returned. *)
Theorem next_returns (m : Method) :
  (forall vs, get_data (pos m) = Some vs ->
              (6 <= length (dwi2tensor (binv S) vs))%nat) ->
  exists t m',
    next m = Ok (t, m')
    /\ (t = EXIT_IMAGE \/ t = BAD_SIGNAL \/ t = HIGH_CURVATURE
        \/ t = CONTINUE)
    /\ (t <> CONTINUE -> pos m' = pos m).
Proof.
  intros Hsix. unfold FACT.next, FACT.do_next.
  destruct (get_data (pos m)) as [vs |]; [| eexists _, _; eauto 6].
  specialize (Hsix vs eq_refl). cbv zeta.
  destruct (Rlt_dec _ _) as [Hlt | Hge]; [eexists _, _; eauto 6 |].
  destruct (get_EV_Ok eig_sorted
              (set_values (set_values m vs)
                 (dwi2tensor (binv S) (values (set_values m vs)))))
    as [m1 Hm1]; [exact Hsix |].
  rewrite Hm1. cbn [mbind result_bind].
  apply get_EV_frame in Hm1 as [Hp _]. cbn in Hp.
  destruct (Rlt_dec _ _); [eexists _, _; eauto 7 |].
  eexists _, _. split; [reflexivity |]. split; [auto 6 | congruence].
Qed.


End FACT_more.


Lemma next_returns_witness :
  exists t m',
    FACT.next unit Example.get_data Example.dwi2tensor Example.tensor2FA
      Example.eig_sorted Example.fact_shared (Example.method (mkPoint 0 0 1))
    = Ok (t, m')
    /\ (t <> CONTINUE -> pos m' = mkPoint 0 0 0).
Proof.
  destruct (next_returns unit Example.get_data Example.dwi2tensor
              Example.tensor2FA Example.eig_sorted Example.fact_shared
              (Example.method (mkPoint 0 0 1)))
    as (t & m' & Hn & _ & Hp).
  - intros vs [= <-]. simpl. lia.
  - exists t, m'. split; [exact Hn | exact Hp].
Defined.


End FACTProperties.

(** ** The track file *)

Module TrackFileProperties.

Import TrackFile.
Open Scope Z_scope.

(** *** Bytes *)

Lemma Z_of_byte_range (b : byte) : 0 <= Z_of_byte b < 256.
Proof.
  unfold Z_of_byte. pose proof (Byte.to_N_bounded b). lia.
Qed.

Lemma byte_of_Z_of_byte (b : byte) : byte_of_Z (Z_of_byte b) = b.
Proof.
  unfold byte_of_Z. rewrite Z.mod_small by apply Z_of_byte_range.
  unfold Z_of_byte. rewrite N2Z.id, Byte.of_to_N. reflexivity.
Qed.

Lemma Z_of_byte_of_Z (z : Z) : Z_of_byte (byte_of_Z z) = z mod 256.
Proof.
  unfold byte_of_Z, Z_of_byte.
  pose proof (Z.mod_pos_bound z 256 ltac:(lia)) as Hb.
  destruct (Byte.of_N (Z.to_N (z mod 256))) as [b |] eqn:E.
  - apply Byte.to_of_N in E. simpl. rewrite E. lia.
  - exfalso. apply Byte.of_N_None_iff in E. lia.
Qed.

Lemma length_le_bytes (n : nat) (w : Z) : length (le_bytes n w) = n.
Proof. revert w. induction n as [| n IH]; intros w; simpl; auto. Qed.

Lemma of_le_bytes_le_bytes (n : nat) (w : Z) :
  of_le_bytes (le_bytes n w) = w mod 256 ^ Z.of_nat n.
Proof.
  revert w. induction n as [| n IH]; intros w.
  - simpl. now rewrite Z.mod_1_r.
  - cbn [le_bytes of_le_bytes]. rewrite IH, Z_of_byte_of_Z.
    rewrite Nat2Z.inj_succ, Z.pow_succ_r by lia.
    rewrite Z.rem_mul_r by lia. reflexivity.
Qed.

Lemma le_bytes_of_le_bytes (bs : list byte) :
  le_bytes (length bs) (of_le_bytes bs) = bs.
Proof.
  induction bs as [| b bs IH]; [reflexivity |].
  cbn [length le_bytes of_le_bytes].
  pose proof (Z_of_byte_range b) as Hb.
  f_equal.
  - unfold byte_of_Z.
    replace ((Z_of_byte b + 256 * of_le_bytes bs) mod 256) with (Z_of_byte b).
    + unfold Z_of_byte. rewrite N2Z.id, Byte.of_to_N. reflexivity.
    + rewrite (Z.mul_comm 256), Z_mod_plus_full. now rewrite Z.mod_small.
  - replace ((Z_of_byte b + 256 * of_le_bytes bs) / 256) with (of_le_bytes bs).
    + exact IH.
    + rewrite (Z.mul_comm 256), Z_div_plus_full by lia.
      rewrite Z.div_small by lia. lia.
Qed.

Lemma of_le_bytes_range (bs : list byte) :
  0 <= of_le_bytes bs < 256 ^ Z.of_nat (length bs).
Proof.
  induction bs as [| b bs IH].
  - simpl. lia.
  - cbn [length of_le_bytes]. pose proof (Z_of_byte_range b).
    rewrite Nat2Z.inj_succ, Z.pow_succ_r by lia. lia.
Qed.

Lemma is_float_mod (w : Z) : is_float w -> w mod 256 ^ Z.of_nat 4 = w.
Proof. unfold is_float. intros Hw. apply Z.mod_small. simpl. lia. Qed.

(** *** Byte order *)

Section Host_properties.

Variable host_le : bool.

Local Abbreviation mem_bytes := (TrackFile.mem_bytes host_le).
Local Abbreviation of_mem_bytes := (TrackFile.of_mem_bytes host_le).
Local Abbreviation LE := (TrackFile.LE host_le).
Local Abbreviation BE := (TrackFile.BE host_le).
Local Abbreviation Point_mem := (TrackFile.Point_mem host_le).
Local Abbreviation Point_of_mem := (TrackFile.Point_of_mem host_le).
Local Abbreviation Points_mem := (TrackFile.Points_mem host_le).
Local Abbreviation format_point := (TrackFile.format_point host_le).

Lemma length_mem_bytes (n : nat) (w : Z) : length (mem_bytes n w) = n.
Proof.
  unfold TrackFile.mem_bytes. destruct host_le;
    rewrite ?length_rev; apply length_le_bytes.
Qed.

(** whatever the machine, the bytes stored for [LE w] are those of [w],
    least significant first, and those stored for [BE w] the same bytes,
    most significant first *)
Lemma mem_bytes_LE (n : nat) (w : Z) : mem_bytes n (LE n w) = le_bytes n w.
Proof.
  unfold TrackFile.mem_bytes, TrackFile.LE, swap. destruct host_le; [reflexivity |].
  rewrite <- (length_le_bytes n w) at 1. rewrite <- length_rev.
  rewrite le_bytes_of_le_bytes. apply rev_involutive.
Qed.

Lemma mem_bytes_BE (n : nat) (w : Z) :
  mem_bytes n (BE n w) = rev (le_bytes n w).
Proof.
  unfold TrackFile.mem_bytes, TrackFile.BE, swap. destruct host_le; [| reflexivity].
  rewrite <- (length_le_bytes n w) at 1. rewrite <- length_rev.
  apply le_bytes_of_le_bytes.
Qed.

Lemma LE_of_mem_bytes (n : nat) (bs : list byte) :
  length bs = n -> LE n (of_mem_bytes bs) = of_le_bytes bs.
Proof.
  intros Hl. unfold TrackFile.of_mem_bytes, TrackFile.LE, swap.
  destruct host_le; [reflexivity |].
  rewrite <- Hl, <- length_rev, le_bytes_of_le_bytes.
  now rewrite rev_involutive.
Qed.

Lemma BE_of_mem_bytes (n : nat) (bs : list byte) :
  length bs = n -> BE n (of_mem_bytes bs) = of_le_bytes (rev bs).
Proof.
  intros Hl. unfold TrackFile.of_mem_bytes, TrackFile.BE, swap.
  destruct host_le; [| reflexivity].
  now rewrite <- Hl, le_bytes_of_le_bytes.
Qed.

Lemma Point_mem_format_point (dt : DataType) (p : Point Z) :
  Point_mem 4 (format_point dt p) = point_bytes dt p.
Proof.
  unfold TrackFile.Point_mem, TrackFile.format_point, point_bytes,
    coordinate_bytes.
  destruct (is_little_endian dt); simpl;
    now rewrite ?mem_bytes_LE, ?mem_bytes_BE.
Qed.

Lemma Points_mem_format (dt : DataType) (ps : list (Point Z)) :
  Points_mem (map (format_point dt) ps) = points_bytes dt ps.
Proof.
  unfold TrackFile.Points_mem, points_bytes. rewrite map_map.
  f_equal. apply map_ext. intros p. apply Point_mem_format_point.
Qed.

Lemma length_coordinate_bytes (dt : DataType) (w : Z) :
  length (coordinate_bytes dt w) = 4%nat.
Proof.
  unfold coordinate_bytes. destruct (is_little_endian dt);
    rewrite ?length_rev; apply length_le_bytes.
Qed.

Lemma length_point_bytes (dt : DataType) (p : Point Z) :
  length (point_bytes dt p) = 12%nat.
Proof.
  unfold point_bytes. rewrite !length_app, !length_coordinate_bytes.
  reflexivity.
Qed.

Lemma length_points_bytes (dt : DataType) (ps : list (Point Z)) :
  length (points_bytes dt ps) = (12 * length ps)%nat.
Proof.
  unfold points_bytes. induction ps as [| p ps IH]; [reflexivity |].
  simpl. rewrite length_app, length_point_bytes, IH. lia.
Qed.

Lemma length_Point_mem (p : Point Z) : length (Point_mem 4 p) = 12%nat.
Proof. unfold TrackFile.Point_mem. now rewrite !length_app, !length_mem_bytes. Qed.

End Host_properties.

(** *** Reading *)

Section Reader_properties.

Variable host_le : bool.
Variable Point_default : nat -> Z.
Variable float_of_double : Z -> Z.

Local Abbreviation Point_mem := (TrackFile.Point_mem host_le).
Local Abbreviation Point_of_mem := (TrackFile.Point_of_mem host_le).
Local Abbreviation read_Point := (TrackFile.read_Point host_le Point_default).
Local Abbreviation get_next_point :=
  (TrackFile.get_next_point host_le Point_default float_of_double).
Local Abbreviation Reader_loop :=
  (TrackFile.Reader_loop host_le Point_default float_of_double).
Local Abbreviation Reader_call :=
  (TrackFile.Reader_call host_le Point_default float_of_double).
Local Abbreviation Reader_all :=
  (TrackFile.Reader_all host_le Point_default float_of_double).

Lemma read_exact (pre bs rest : list byte) :
  read (length bs) (stream_at (pre ++ bs ++ rest) (length pre))
  = (bs, stream_at (pre ++ bs ++ rest) (length pre + length bs)).
Proof.
  unfold read, stream_at. simpl.
  rewrite drop_app_length, take_app_length.
  rewrite bool_decide_eq_false_2 by lia. reflexivity.
Qed.

Lemma Point_of_mem_bytes (c0 c1 c2 : list byte) :
  length c0 = 4%nat -> length c1 = 4%nat -> length c2 = 4%nat ->
  Point_of_mem 4 (c0 ++ c1 ++ c2)
  = mkPoint (of_mem_bytes host_le c0) (of_mem_bytes host_le c1)
            (of_mem_bytes host_le c2).
Proof.
  intros H0 H1 H2. unfold TrackFile.Point_of_mem.
  rewrite (take_app_length' c0) by lia.
  rewrite (drop_app_length' c0) by lia.
  rewrite (take_app_length' c1) by lia.
  rewrite (assoc_L (++)).
  rewrite (drop_app_length' (c0 ++ c1)) by (rewrite length_app; lia).
  now rewrite take_ge by lia.
Qed.

Lemma read_Point_exact (dt : DataType) (p : Point Z) (pre rest : list byte) :
  read_Point 4 (stream_at (pre ++ point_bytes dt p ++ rest) (length pre))
  = (Point_of_mem 4 (point_bytes dt p),
     stream_at (pre ++ point_bytes dt p ++ rest) (length pre + 12)).
Proof.
  unfold TrackFile.read_Point.
  change (3 * 4)%nat with 12%nat.
  rewrite <- (length_point_bytes dt p) at 1.
  rewrite read_exact, length_point_bytes.
  rewrite drop_ge by (rewrite length_Point_mem; lia).
  now rewrite app_nil_r.
Qed.

(** a point read from a file of 32-bit floats is the point written, each
    coordinate taken modulo 2^32 *)
Lemma get_next_point_exact (r : Reader) (p : Point Z) (pre rest : list byte) :
  dtype r = Float32LE \/ dtype r = Float32BE ->
  in_ r = stream_at (pre ++ point_bytes (dtype r) p ++ rest) (length pre) ->
  get_next_point r
  = Ok (Point_map (fun w => w mod 256 ^ Z.of_nat 4) p,
        stream_at (pre ++ point_bytes (dtype r) p ++ rest) (length pre + 12)).
Proof.
  intros Hdt Hin. unfold TrackFile.get_next_point. rewrite Hin.
  destruct Hdt as [Hdt | Hdt]; rewrite Hdt; rewrite read_Point_exact;
    f_equal; f_equal; unfold point_bytes, coordinate_bytes;
    cbn [is_little_endian];
    rewrite Point_of_mem_bytes
      by (rewrite ?length_rev; apply length_le_bytes);
    unfold Point_map; cbn [p0 p1 p2].
  - rewrite !LE_of_mem_bytes by apply length_le_bytes.
    now rewrite !of_le_bytes_le_bytes.
  - rewrite !BE_of_mem_bytes by (rewrite length_rev; apply length_le_bytes).
    now rewrite !rev_involutive, !of_le_bytes_le_bytes.
Qed.

Lemma is_point_mod (p : Point Z) :
  is_point p -> Point_map (fun w => w mod 256 ^ Z.of_nat 4) p = p.
Proof.
  intros (H0 & H1 & H2 & _). destruct p as [a b c]. unfold Point_map.
  simpl in *. now rewrite !is_float_mod.
Qed.

Lemma delimiter_read :
  isinf (NAN mod 256 ^ Z.of_nat 4) = false
  /\ isnan (NAN mod 256 ^ Z.of_nat 4) = true.
Proof. split; reflexivity. Qed.

(** at the barrier the reader closes the stream and returns false *)
Lemma Reader_loop_barrier (fuel : nat) (r : Reader) (tck : Streamline)
    (f pre rest : list byte) :
  dtype r = Float32LE \/ dtype r = Float32BE ->
  in_ r = stream_at f (length pre) ->
  f = pre ++ point_bytes (dtype r) barrier ++ rest ->
  Reader_loop (S fuel) r tck
  = Ok (false, tck, set_in r (close (stream_at f (length pre + 12)))).
Proof.
  intros Hdt Hin ->. cbn [TrackFile.Reader_loop].
  rewrite (get_next_point_exact r barrier pre rest Hdt Hin).
  reflexivity.
Qed.

(** the points of a streamline and its delimiter are read as one
    streamline, numbered by [current_index], of weight 1 when no weights
    were loaded *)
Lemma Reader_loop_streamline (ps : list (Point Z)) :
  forall (fuel : nat) (r : Reader) (tck : Streamline) (f pre rest : list byte),
    dtype r = Float32LE \/ dtype r = Float32BE ->
    weights r = [] ->
    Forall is_point ps ->
    (length ps < fuel)%nat ->
    in_ r = stream_at f (length pre) ->
    f = pre ++ (points_bytes (dtype r) ps ++ point_bytes (dtype r) delimiter)
            ++ rest ->
    Reader_loop fuel r tck
    = Ok (true,
          {| points := points tck ++ ps; index := current_index r;
             weight := one |},
          {| in_ := stream_at f (length pre + 12 * (length ps + 1));
             dtype := dtype r;
             current_index := size_t_incr (current_index r);
             weights := [] |}).
Proof.
  induction ps as [| p ps IH]; intros fuel r tck f pre rest Hdt Hw Hps Hf Hin Hc.
  - destruct fuel as [| fuel]; [simpl in Hf; lia |].
    cbn [TrackFile.Reader_loop].
    simpl in Hc. subst f.
    rewrite (get_next_point_exact r delimiter pre rest Hdt Hin).
    destruct delimiter_read as [Hinf Hnan].
    cbn [mbind result_bind]. cbn beta iota. unfold Point_map at 1 2.
    cbn [p0 delimiter]. rewrite Hinf, Hnan.
    change (eofbit (stream_at _ (length pre + 12))) with false.
    cbn iota. cbn [weights set_in]. rewrite Hw, app_nil_r.
    unfold incr_current_index. cbn. rewrite Hw.
    repeat f_equal; lia.
  - destruct fuel as [| fuel]; [simpl in Hf; lia |].
    cbn [TrackFile.Reader_loop].
    apply Forall_cons in Hps as [Hp Hps].
    assert (Hc' : f = pre ++ point_bytes (dtype r) p
                        ++ (points_bytes (dtype r) ps
                            ++ point_bytes (dtype r) delimiter) ++ rest).
    { rewrite Hc. unfold points_bytes. simpl. now rewrite <- !(assoc_L (++)). }
    pose proof (get_next_point_exact r p pre _ Hdt
                  (eq_trans Hin (f_equal (fun f => stream_at f _) Hc'))) as Hg.
    rewrite <- Hc' in Hg. rewrite Hg, (is_point_mod p Hp).
    destruct Hp as (_ & _ & _ & Hnan & Hinf).
    cbn [mbind result_bind]. cbn beta iota.
    rewrite Hinf, Hnan.
    change (eofbit (stream_at f (length pre + 12))) with false.
    change (good (stream_at f (length pre + 12))) with true.
    cbn iota.
    rewrite (IH fuel _ _ f (pre ++ point_bytes (dtype r) p) rest);
      try assumption; try (simpl in *; lia).
    + cbn [points set_in current_index dtype].
      rewrite <- (assoc_L (++)), length_app, length_point_bytes.
      replace (length pre + 12 + 12 * (length ps + 1))%nat
        with (length pre + 12 * (length (p :: ps) + 1))%nat
        by (simpl; lia).
      reflexivity.
    + cbn. rewrite length_app, length_point_bytes. reflexivity.
    + cbn. rewrite Hc'. now rewrite <- !(assoc_L (++)).
Qed.

Lemma Reader_call_barrier (r : Reader) (tck : Streamline)
    (f pre rest : list byte) :
  dtype r = Float32LE \/ dtype r = Float32BE ->
  in_ r = stream_at f (length pre) ->
  f = pre ++ point_bytes (dtype r) barrier ++ rest ->
  Reader_call r tck
  = Ok (false, {| points := []; index := index tck; weight := weight tck |},
        set_in r (close (stream_at f (length pre + 12)))).
Proof.
  intros Hdt Hin Hc. unfold TrackFile.Reader_call.
  rewrite Hin. cbn [is_open stream_at in_ content gpos].
  now apply (Reader_loop_barrier _ r _ f pre rest).
Qed.

Lemma Reader_call_streamline (r : Reader) (tck : Streamline)
    (ps : list (Point Z)) (f pre rest : list byte) :
  dtype r = Float32LE \/ dtype r = Float32BE ->
  weights r = [] ->
  Forall is_point ps ->
  in_ r = stream_at f (length pre) ->
  f = pre ++ (points_bytes (dtype r) ps ++ point_bytes (dtype r) delimiter)
          ++ rest ->
  Reader_call r tck
  = Ok (true,
        {| points := ps; index := current_index r; weight := one |},
        {| in_ := stream_at f (length pre + 12 * (length ps + 1));
           dtype := dtype r;
           current_index := size_t_incr (current_index r);
           weights := [] |}).
Proof.
  intros Hdt Hw Hps Hin Hc. unfold TrackFile.Reader_call.
  rewrite Hin. cbn [is_open stream_at in_ content gpos].
  rewrite (Reader_loop_streamline ps _ r _ f pre rest); try assumption.
  - reflexivity.
  - rewrite Hc, !length_app, length_points_bytes, length_point_bytes. lia.
Qed.

(** a reader placed at the data of a list of streamlines, which a barrier
    follows, gives the non-empty ones back, then returns false and closes
    the stream *)
Lemma Reader_all_data (tcks : list Streamline) :
  forall (n : nat) (r : Reader) (tck0 : Streamline) (f pre rest : list byte),
    dtype r = Float32LE \/ dtype r = Float32BE ->
    weights r = [] ->
    Forall (fun tck => Forall is_point (points tck)) tcks ->
    in_ r = stream_at f (length pre) ->
    f = pre ++ data_bytes (dtype r) tcks ++ point_bytes (dtype r) barrier
            ++ rest ->
    (length (read_back (current_index r) tcks) < n)%nat ->
    exists r',
      Reader_all n r tck0 = Ok (read_back (current_index r) tcks, r')
      /\ is_open (in_ r') = false.
Proof.
  induction tcks as [| tck tcks IH];
    intros n r tck0 f pre rest Hdt Hw Hps Hin Hc Hn.
  - destruct n as [| n]; [simpl in Hn; lia |].
    cbn [TrackFile.Reader_all read_back].
    rewrite (Reader_call_barrier r tck0 f pre rest Hdt Hin Hc).
    eexists. split; reflexivity.
  - apply Forall_cons in Hps as [Hp Hps].
    unfold data_bytes in Hc. cbn [map concat] in Hc.
    fold (data_bytes (dtype r) tcks) in Hc.
    unfold streamline_bytes in Hc. cbn [read_back] in *.
    destruct (points tck) as [| p ps] eqn:Ept.
    + apply (IH n r tck0 f pre rest); assumption.
    + destruct n as [| n]; [simpl in Hn; lia |].
      cbn [TrackFile.Reader_all].
      rewrite <- (assoc_L (++)) in Hc.
      rewrite (Reader_call_streamline r tck0 (p :: ps) f pre _ Hdt Hw Hp Hin
                 ltac:(rewrite Hc; now rewrite <- !(assoc_L (++)))).
      cbn [mbind result_bind]. cbn beta iota.
      set (r1 := {| in_ := _; dtype := dtype r; current_index := _;
                    weights := [] |}).
      destruct (IH n r1 {| points := p :: ps; index := current_index r;
                           weight := one |} f
                  (pre ++ points_bytes (dtype r) (p :: ps)
                       ++ point_bytes (dtype r) delimiter) rest)
        as (r' & Hr' & Hclosed); try assumption; try reflexivity.
      * unfold r1. cbn [in_]. f_equal.
        rewrite !length_app, length_points_bytes, length_point_bytes. lia.
      * cbn [dtype r1]. rewrite Hc. now rewrite <- !(assoc_L (++)).
      * cbn [current_index r1]. simpl in Hn. lia.
      * rewrite Hr'. cbn. exists r'. split; [reflexivity | exact Hclosed].
Qed.

End Reader_properties.

(** *** Writing *)

Section Writer_properties.

Variable host_le : bool.
Variable Point_default : nat -> Z.
Variable update_counts : nat -> Z -> Z -> list byte -> list byte.
Variable str_float : Z -> string.

Local Abbreviation Point_mem := (TrackFile.Point_mem host_le).
Local Abbreviation Points_mem := (TrackFile.Points_mem host_le).
Local Abbreviation format_point := (TrackFile.format_point host_le).
Local Abbreviation commit := (TrackFile.commit host_le update_counts).
Local Abbreviation unbuffered_buffer :=
  (TrackFile.unbuffered_buffer host_le Point_default).
Local Abbreviation WriterUnbuffered_call :=
  (TrackFile.WriterUnbuffered_call host_le Point_default update_counts str_float).
Local Abbreviation WriterUnbuffered_calls :=
  (TrackFile.WriterUnbuffered_calls host_le Point_default update_counts
     str_float).

Lemma write_at_middle (pre old bs post : list byte) :
  length old = length bs ->
  write_at (length pre) bs (pre ++ old ++ post) = pre ++ bs ++ post.
Proof.
  intros Hl. unfold write_at.
  rewrite take_app_length.
  replace (length pre - length (pre ++ old ++ post))%nat with 0%nat
    by (rewrite !length_app; lia).
  rewrite <- Hl, <- length_app, (assoc_L (++) pre old post), drop_app_length.
  reflexivity.
Qed.

Lemma write_at_end (bs f : list byte) : write_at (length f) bs f = f ++ bs.
Proof.
  unfold write_at. rewrite firstn_all, Nat.sub_diag, drop_ge by lia.
  simpl. now rewrite app_nil_r.
Qed.

Lemma length_Points_mem (ps : list (Point Z)) :
  length (Points_mem ps) = (12 * length ps)%nat.
Proof.
  unfold TrackFile.Points_mem. induction ps as [| p ps IH]; [reflexivity |].
  simpl. rewrite length_app, length_Point_mem, IH. lia.
Qed.

Lemma Points_mem_app (ps qs : list (Point Z)) :
  Points_mem (ps ++ qs) = Points_mem ps ++ Points_mem qs.
Proof. unfold TrackFile.Points_mem. now rewrite map_app, concat_app. Qed.

Lemma points_bytes_app (dt : DataType) (ps qs : list (Point Z)) :
  points_bytes dt (ps ++ qs) = points_bytes dt ps ++ points_bytes dt qs.
Proof. unfold points_bytes. now rewrite map_app, concat_app. Qed.

Lemma take_S_insert {A : Type} (l : list A) (n : nat) (x : A) :
  (n < length l)%nat -> take (S n) (<[n := x]> l) = take n l ++ [x].
Proof.
  revert n. induction l as [| a l IH]; intros n Hn; simpl in Hn; [lia |].
  destruct n as [| n]; [reflexivity |].
  simpl. f_equal. apply IH. lia.
Qed.

Lemma writable_set_file (path path' : string) (f : list byte) (σ : World) :
  writable path (set_file path' f σ) = writable path σ.
Proof. reflexivity. Qed.

(** rewriting the track file keeps the weights file as it is *)
Lemma writer_ok_set_file (H : nat) (body body' : list byte)
    (w w' : WriterUnbuffered) (σ : World) (f : list byte) :
  writer_ok H body w σ ->
  name w' = name w -> wdtype w' = wdtype w ->
  weights_name w' = weights_name w ->
  (H <= length f)%nat ->
  drop H f = body' ++ point_bytes (wdtype w) barrier ->
  barrier_addr w' = (H + length body')%nat ->
  writer_ok H body' w' (set_file (name w) f σ).
Proof.
  intros (Hwr & _ & _ & Hwt) Hn Hd Hwn Hlen Hdrop Hb.
  unfold writer_ok. rewrite Hn, Hd, Hwn, writable_set_file.
  split; [exact Hwr |]. split.
  { exists f. simpl. rewrite lookup_insert_eq. auto. }
  split; [exact Hb |].
  destruct Hwt as [He | (Hne & Hww & Hex)]; [left; exact He | right].
  split; [exact Hne |]. split; [exact Hww |].
  simpl. now rewrite lookup_insert_ne by congruence.
Qed.

(** [commit] of [n] points: they replace the barrier and a new barrier
    follows them; the header is rewritten with the counts of the writer *)
Lemma commit_ok (H : nat) (body : list byte) (w : WriterUnbuffered)
    (σ : World) (data : list (Point Z)) (n : nat) :
  writer_ok H body w σ ->
  counts_in_header H (count_offset w) update_counts ->
  (0 < n < length data)%nat ->
  exists (g : list byte),
    let w' := set_barrier_addr w (barrier_addr w + 12 * n) in
    let f' := update_counts (count_offset w) (count w) (total_count w) g in
    commit w data n σ
    = Ok (w', <[n := format_point (wdtype w) barrier]> data,
          set_file (name w) f' σ)
    /\ drop (barrier_addr w) g
       = Points_mem (take n data) ++ point_bytes (wdtype w) barrier
    /\ (H <= barrier_addr w)%nat
    /\ writer_ok H (body ++ Points_mem (take n data)) w'
         (set_file (name w) f' σ).
Proof.
  intros Hok Hupd Hn.
  pose proof Hok as (Hwr & (f & Hf & Hlen & Hdrop) & Hb & Hwt).
  set (B := format_point (wdtype w) barrier).
  set (data' := <[n := B]> data).
  set (hd := take H f).
  assert (Hhd : length hd = H) by (unfold hd; rewrite length_take; lia).
  assert (Hfeq : f = hd ++ body ++ point_bytes (wdtype w) barrier).
  { rewrite <- Hdrop. unfold hd. now rewrite take_drop. }
  assert (Hd1 : Points_mem (take 1 data') ++ Points_mem (take n (drop 1 data'))
                = Points_mem (take n data) ++ point_bytes (wdtype w) barrier).
  { rewrite <- Points_mem_app.
    replace (take 1 data' ++ take n (drop 1 data')) with (take (S n) data').
    - unfold data'. rewrite take_S_insert by lia.
      rewrite Points_mem_app. f_equal. unfold TrackFile.Points_mem. simpl.
      rewrite app_nil_r. apply Point_mem_format_point.
    - now rewrite take_take_drop. }
  assert (Hl1 : length (Points_mem (take 1 data')) = 12%nat).
  { rewrite length_Points_mem, length_take. unfold data'.
    rewrite length_insert. lia. }
  exists (hd ++ body ++ Points_mem (take n data)
             ++ point_bytes (wdtype w) barrier).
  cbv zeta.
  assert (Hg : write_at (barrier_addr w) (Points_mem (take 1 data'))
                 (f ++ Points_mem (take n (drop 1 data')))
               = hd ++ body ++ Points_mem (take n data)
                    ++ point_bytes (wdtype w) barrier).
  { rewrite Hfeq, Hb, <- Hhd, <- length_app.
    rewrite <- !(assoc_L (++)). rewrite (assoc_L (++) hd body).
    rewrite write_at_middle by (rewrite Hl1; apply length_point_bytes).
    rewrite Hd1. now rewrite <- !(assoc_L (++)). }
  assert (Hlf : (length f = H + length body + 12)%nat).
  { rewrite Hfeq, !length_app, length_point_bytes. lia. }
  split; [| split; [| split]].
  - unfold TrackFile.commit.
    destruct (decide (n = 0%nat)) as [? | _]; [lia |].
    unfold store. destruct (decide (n < length data)%nat) as [_ | ?]; [| lia].
    cbn [mbind result_bind]. cbn beta iota.
    unfold ofstream_ate. rewrite Hwr, Hf.
    fold B. fold data'. rewrite Hg.
    repeat f_equal.
    rewrite length_app, length_Points_mem, length_take, length_drop.
    unfold data', sizeof_Point. rewrite length_insert. lia.
  - rewrite Hb, <- Hhd, (assoc_L (++) hd body), <- length_app.
    now rewrite drop_app_length.
  - lia.
  - destruct (Hupd (count w) (total_count w)
                (hd ++ body ++ Points_mem (take n data)
                    ++ point_bytes (wdtype w) barrier)) as [Hul Hud].
    { rewrite length_app. lia. }
    apply (writer_ok_set_file H body _ w); try reflexivity; try assumption.
    + rewrite Hul, length_app. lia.
    + rewrite Hud, <- Hhd, drop_app_length. now rewrite <- (assoc_L (++)).
    + simpl. rewrite Hb, length_app, length_Points_mem, length_take. lia.
Qed.

Lemma foldl_insert_replicate {A : Type} (x u : A) (j : nat) :
  forall k m : nat,
    foldl (fun b n => <[n := x]> b) (replicate k x ++ replicate (j + m) u)
          (seq k j)
    = replicate (k + j) x ++ replicate m u.
Proof.
  induction j as [| j IH]; intros k m.
  - simpl. now rewrite Nat.add_0_r.
  - cbn [seq foldl].
    rewrite insert_app_r_alt by (rewrite length_replicate; lia).
    rewrite length_replicate, Nat.sub_diag. cbn [Nat.add replicate].
    cbn [insert list_insert].
    rewrite cons_middle, (assoc_L (++)), <- replicate_S_end.
    rewrite (IH (S k) m). f_equal. f_equal. lia.
Qed.

(** the array built by the unbuffered writer for a streamline of [n]
    points holds [n] barriers where its points should be, then the
    delimiter *)
Lemma unbuffered_buffer_eq (dt : DataType) (ps : list (Point Z)) :
  unbuffered_buffer dt ps
  = replicate (length ps) (format_point dt barrier)
      ++ [format_point dt delimiter; Point_new Point_default 4].
Proof.
  unfold TrackFile.unbuffered_buffer.
  pose proof (foldl_insert_replicate (format_point dt barrier)
                (Point_new Point_default 4) (length ps) 0 2) as Hf.
  cbn [replicate app] in Hf. rewrite Hf.
  rewrite insert_app_r_alt by (rewrite length_replicate; lia).
  rewrite length_replicate. cbn [Nat.add]. rewrite Nat.sub_diag.
  reflexivity.
Qed.

Lemma map_replicate_format (dt : DataType) (n : nat) (p : Point Z) :
  replicate n (format_point dt p) = map (format_point dt) (replicate n p).
Proof. induction n as [| n IH]; simpl; now rewrite ?IH. Qed.

Lemma write_weights_ok (H : nat) (body : list byte) (w : WriterUnbuffered)
    (σ : World) (contents : string) :
  writer_ok H body w σ ->
  weights_name w <> EmptyString ->
  exists wf,
    write_weights w contents σ = Ok (set_file (weights_name w) wf σ)
    /\ writer_ok H body w (set_file (weights_name w) wf σ).
Proof.
  intros (Hwr & (f & Hf & Hlen & Hdrop) & Hb & Hwt) Hne.
  destruct Hwt as [? | (Hnn & Hww & [wf Hwf])]; [congruence |].
  exists (wf ++ String.list_byte_of_string contents).
  unfold write_weights, ofstream_ate. rewrite Hww, Hwf.
  split; [reflexivity |].
  unfold writer_ok. rewrite !writable_set_file.
  split; [exact Hwr |]. split.
  { exists f. simpl. rewrite lookup_insert_ne by congruence. auto. }
  split; [exact Hb |]. right.
  split; [exact Hnn |]. split; [exact Hww |].
  simpl. rewrite lookup_insert_eq. eauto.
Qed.

Lemma writer_ok_counts (H : nat) (body : list byte) (w w' : WriterUnbuffered)
    (σ : World) :
  writer_ok H body w σ ->
  name w' = name w -> wdtype w' = wdtype w ->
  weights_name w' = weights_name w -> barrier_addr w' = barrier_addr w ->
  writer_ok H body w' σ.
Proof.
  unfold writer_ok. intros Hok -> -> -> ->. exact Hok.
Qed.

(** a call of the unbuffered writer returns true; for a streamline of [n]
    points it puts [n] barriers and a delimiter where the barrier was, a new
    barrier after them, and rewrites the header with the counts as they
    were before the call *)
Lemma WriterUnbuffered_call_ok (H : nat) (body : list byte)
    (w : WriterUnbuffered) (tck : Streamline) (σ : World) :
  writer_ok H body w σ ->
  counts_in_header H (count_offset w) update_counts ->
  exists w' σ',
    WriterUnbuffered_call w tck σ = Ok (true, w', σ')
    /\ writer_ok H (body ++ unbuffered_bytes (wdtype w) tck) w' σ'
    /\ name w' = name w /\ wdtype w' = wdtype w
    /\ count_offset w' = count_offset w
    /\ weights_name w' = weights_name w
    /\ total_count w' = size_t_incr (total_count w)
    /\ count w'
       = match points tck with [] => count w | _ :: _ => size_t_incr (count w) end
    /\ (points tck <> [] ->
        exists g,
          files σ' !! name w
          = Some (update_counts (count_offset w) (count w) (total_count w) g)
          /\ drop (barrier_addr w) g
             = unbuffered_bytes (wdtype w) tck
                 ++ point_bytes (wdtype w) barrier
          /\ barrier_addr w'
             = (barrier_addr w + 12 * (length (points tck) + 1))%nat).
Proof.
  intros Hok Hupd. unfold TrackFile.WriterUnbuffered_call, unbuffered_bytes.
  destruct (points tck) as [| p ps] eqn:Ept.
  - cbn [mbind result_bind]. cbn beta iota.
    eexists _, _. split; [reflexivity |]. rewrite app_nil_r.
    split; [eapply writer_ok_counts; eauto |].
    repeat (split; [reflexivity |]). congruence.
  - set (n := length (p :: ps)).
    destruct (commit_ok H body w σ (unbuffered_buffer (wdtype w) (p :: ps))
                (n + 1) Hok Hupd) as (g & Hc & Hg & _ & Hok').
    { rewrite unbuffered_buffer_eq, length_app, length_replicate. simpl. lia. }
    cbv zeta in Hc, Hok'. rewrite Hc.
    cbn [mbind result_bind]. cbn beta iota.
    assert (Hbytes : Points_mem (take (n + 1)
                       (unbuffered_buffer (wdtype w) (p :: ps)))
                     = points_bytes (wdtype w) (replicate n barrier)
                         ++ point_bytes (wdtype w) delimiter).
    { rewrite unbuffered_buffer_eq. fold n.
      rewrite take_app_add' by (now rewrite length_replicate).
      cbn [take]. rewrite Points_mem_app, map_replicate_format.
      rewrite Points_mem_format. f_equal.
      unfold TrackFile.Points_mem. simpl. rewrite app_nil_r.
      apply Point_mem_format_point. }
    rewrite Hbytes in Hg, Hok'.
    cbn [weights_name set_barrier_addr].
    destruct (decide (weights_name w <> EmptyString)) as [Hne | He].
    + destruct (write_weights_ok H _ _ _
                  (str_float (weight tck) ++ newline) Hok' Hne)
        as (wf & Hww & Hok'').
      cbn [weights_name set_barrier_addr] in Hww. 
      change (write_weights
                (set_barrier_addr w (barrier_addr w + 12 * (n + 1)))
                (str_float (weight tck) ++ newline)
                (set_file (name w)
                   (update_counts (count_offset w) (count w) (total_count w) g)
                   σ))
        with (write_weights
                (set_barrier_addr w (barrier_addr w + 12 * (n + 1)))
                (str_float (weight tck) +:+ newline)
                (set_file (name w)
                   (update_counts (count_offset w) (count w) (total_count w) g)
                   σ)) in Hww.
      rewrite Hww. cbn [mbind result_bind]. cbn beta iota.
      eexists _, _. split; [reflexivity |].
      split; [eapply writer_ok_counts; eauto |].
      repeat (split; [reflexivity |]).
      intros _. exists g. split; [| split; [exact Hg | reflexivity]].
      destruct Hok as (_ & _ & _ & [? | (Hnn & _)]); [congruence |].
      simpl. rewrite lookup_insert_ne by congruence.
      now rewrite lookup_insert_eq.
    + cbn [mbind result_bind]. cbn beta iota.
      eexists _, _. split; [reflexivity |].
      split; [eapply writer_ok_counts; eauto |].
      repeat (split; [reflexivity |]).
      intros _. exists g. split; [| split; [exact Hg | reflexivity]].
      simpl. now rewrite lookup_insert_eq.
Qed.

End Writer_properties.

Section WriterUnbuffered_properties.

Variable host_le : bool.
Variable Point_default : nat -> Z.
Variable create : DataType -> Properties -> list byte * nat.
Variable update_counts : nat -> Z -> Z -> list byte -> list byte.
Variable str_float : Z -> string.

Local Abbreviation WriterUnbuffered_new :=
  (TrackFile.WriterUnbuffered_new host_le create).
Local Abbreviation WriterUnbuffered_call :=
  (TrackFile.WriterUnbuffered_call host_le Point_default update_counts str_float).
Local Abbreviation WriterUnbuffered_calls :=
  (TrackFile.WriterUnbuffered_calls host_le Point_default update_counts
     str_float).

(** a writer that was constructed has its file made of the header and the
    barrier, and counts that are zero *)
Lemma WriterUnbuffered_new_ok (file : string) (dt : DataType)
    (props : Properties) (σ0 σ1 : World) (w : WriterUnbuffered) :
  WriterUnbuffered_new file dt props σ0 = Ok (w, σ1) ->
  tck_weights_out σ0 <> Some file ->
  writer_ok (length (create dt props).1) [] w σ1
  /\ name w = file /\ wdtype w = dt
  /\ count_offset w = (create dt props).2
  /\ count w = 0 /\ total_count w = 0
  /\ files σ1 !! file = Some ((create dt props).1 ++ point_bytes dt barrier)
  /\ (tck_weights_out σ0 = None -> weights_name w = EmptyString).
Proof.
  unfold TrackFile.WriterUnbuffered_new, ofstream_trunc.
  destruct (writable file σ0) eqn:Hwr; [| discriminate].
  destruct (create dt props) as [h off]. cbn [fst snd].
  rewrite write_at_end, Point_mem_format_point.
  cbn [tck_weights_out set_file].
  destruct (tck_weights_out σ0) as [path |] eqn:Hopt.
  - unfold set_weights_path. cbn [weights_name set_weights_name name].
    destruct (decide _) as [Hne | _]; [congruence |].
    destruct (negb (overwrite_files _) && Path_exists _ _);
      [intros [=] |].
    unfold ofstream_trunc. rewrite !writable_set_file.
    destruct (writable path σ0) eqn:Hwp; [| discriminate].
    intros [= <- <-] Hpf.
    assert (Hp : path <> file) by congruence.
    split; [| repeat (split; [reflexivity |])].
    + unfold writer_ok. cbn [name wdtype barrier_addr weights_name].
      rewrite !writable_set_file.
      split; [exact Hwr |]. split.
      { eexists. split; [| split].
        - simpl. rewrite lookup_insert_ne by congruence.
          apply lookup_insert_eq.
        - rewrite length_app. lia.
        - now rewrite drop_app_length. }
      split; [simpl; lia |]. right.
      split; [exact Hp |]. split; [exact Hwp |].
      simpl. rewrite lookup_insert_eq. eauto.
    + split; [| discriminate].
      simpl. rewrite lookup_insert_ne by congruence. apply lookup_insert_eq.
  - intros [= <- <-] _.
    split; [| repeat (split; [reflexivity |])].
    + unfold writer_ok. cbn [name wdtype barrier_addr weights_name].
      rewrite !writable_set_file.
      split; [exact Hwr |]. split.
      { eexists. split; [| split].
        - simpl. apply lookup_insert_eq.
        - rewrite length_app. lia.
        - now rewrite drop_app_length. }
      split; [simpl; lia |]. left. reflexivity.
    + split; [| reflexivity]. simpl. apply lookup_insert_eq.
Qed.

Lemma concat_ends_with {A : Type} (D : list A) (chunks : list (list A)) :
  Forall (fun c => c = [] \/ exists c', c = c' ++ D) chunks ->
  concat chunks = [] \/ exists b, concat chunks = b ++ D.
Proof.
  induction 1 as [| c cs Hc _ IH]; [left; reflexivity |].
  cbn [concat]. destruct IH as [-> | [b ->]].
  - rewrite app_nil_r. exact Hc.
  - right. exists (c ++ b). now rewrite (assoc_L (++)).
Qed.

Lemma unbuffered_bytes_ends (dt : DataType) (tck : Streamline) :
  unbuffered_bytes dt tck = []
  \/ exists c, unbuffered_bytes dt tck = c ++ point_bytes dt delimiter.
Proof.
  unfold unbuffered_bytes. destruct (points tck); [left | right]; eauto.
Qed.

Lemma streamline_bytes_ends (dt : DataType) (tck : Streamline) :
  streamline_bytes dt tck = []
  \/ exists c, streamline_bytes dt tck = c ++ point_bytes dt delimiter.
Proof.
  unfold streamline_bytes. destruct (points tck); [left | right]; eauto.
Qed.

Lemma size_t_incr_mod (n : Z) :
  size_t_incr (n mod 2 ^ 64) = (n + 1) mod 2 ^ 64.
Proof.
  unfold size_t_incr. now rewrite Z.add_mod_idemp_l by lia.
Qed.

Lemma iter_size_t_incr (n : nat) :
  Nat.iter n size_t_incr 0 = Z.of_nat n mod 2 ^ 64.
Proof.
  induction n as [| n IH]; [reflexivity |].
  rewrite Nat.iter_succ, IH, size_t_incr_mod. f_equal. lia.
Qed.

Lemma iter_size_t_incr_comm (n : nat) (z : Z) :
  Nat.iter n size_t_incr (size_t_incr z) = size_t_incr (Nat.iter n size_t_incr z).
Proof.
  induction n as [| n IH]; [reflexivity |].
  now rewrite !Nat.iter_succ, IH.
Qed.

(** any number of calls of the unbuffered writer return, and leave the file
    made of the header, what the calls added, and the barrier *)
Lemma WriterUnbuffered_calls_ok (tcks : list Streamline) :
  forall (H : nat) (body : list byte) (w : WriterUnbuffered) (σ : World),
    writer_ok H body w σ ->
    counts_in_header H (count_offset w) update_counts ->
    exists w' σ',
      WriterUnbuffered_calls w tcks σ = Ok (w', σ')
      /\ writer_ok H
           (body ++ concat (map (unbuffered_bytes (wdtype w)) tcks)) w' σ'
      /\ name w' = name w /\ wdtype w' = wdtype w
      /\ total_count w' = Nat.iter (length tcks) size_t_incr (total_count w).
Proof.
  induction tcks as [| tck tcks IH]; intros H body w σ Hok Hupd.
  - exists w, σ. cbn. rewrite app_nil_r. auto.
  - destruct (WriterUnbuffered_call_ok host_le Point_default update_counts
                str_float H body w tck σ Hok Hupd)
      as (w1 & σ1 & Hc & Hok1 & Hn1 & Hd1 & Ho1 & _ & Ht1 & _).
    destruct (IH H _ w1 σ1 Hok1) as (w' & σ' & Hcs & Hok' & Hn & Hd & Ht).
    { now rewrite Ho1. }
    exists w', σ'. cbn [TrackFile.WriterUnbuffered_calls].
    change (TrackFile.WriterUnbuffered_call host_le Point_default update_counts
              str_float w tck σ) with (WriterUnbuffered_call w tck σ).
    rewrite Hc. cbn [mbind result_bind]. cbn beta iota.
    split; [exact Hcs |].
    cbn [map concat]. rewrite (assoc_L (++)). rewrite Hd1 in Hok'.
    split; [exact Hok' |].
    rewrite Hn, Hd, Ht, Ht1. split; [auto | split; [auto |]].
    cbn [length]. rewrite Nat.iter_succ. apply iter_size_t_incr_comm.
Qed.

End WriterUnbuffered_properties.

Section Writer_buffered_properties.

Variable host_le : bool.
Variable update_counts : nat -> Z -> Z -> list byte -> list byte.
Variable str_float : Z -> string.

Local Abbreviation format_point := (TrackFile.format_point host_le).
Local Abbreviation Points_mem := (TrackFile.Points_mem host_le).
Local Abbreviation add_point := (TrackFile.add_point host_le).
Local Abbreviation add_points := (TrackFile.add_points host_le).
Local Abbreviation Writer_commit := (TrackFile.Writer_commit host_le update_counts).
Local Abbreviation Writer_call :=
  (TrackFile.Writer_call host_le update_counts str_float).
Local Abbreviation Writer_calls :=
  (TrackFile.Writer_calls host_le update_counts str_float).
Local Abbreviation Writer_delete := (TrackFile.Writer_delete host_le update_counts).
Local Abbreviation Writer_ok := (TrackFile.Writer_ok host_le).

(** the points added to the buffer follow those it holds; nothing else of
    the writer changes *)
Lemma add_points_ok (ps : list (Point Z)) :
  forall w : Writer,
    (buffer_size w + length ps <= length (buffer w))%nat ->
    exists w',
      add_points w ps = Ok w'
      /\ super w' = super w /\ buffer_capacity w' = buffer_capacity w
      /\ weights_buffer w' = weights_buffer w /\ commits w' = commits w
      /\ buffer_size w' = (buffer_size w + length ps)%nat
      /\ length (buffer w') = length (buffer w)
      /\ take (buffer_size w') (buffer w')
         = take (buffer_size w) (buffer w)
             ++ map (format_point (wdtype (super w))) ps.
Proof.
  induction ps as [| p ps IH]; intros w Hl.
  - exists w. cbn. rewrite Nat.add_0_r, app_nil_r. auto 10.
  - cbn [length] in Hl. cbn [TrackFile.add_points].
    unfold TrackFile.add_point at 1, store.
    destruct (decide _) as [Hlt | ?]; [| lia].
    cbn [mbind result_bind]. cbn beta iota.
    set (w1 := {| super := super w; buffer_capacity := buffer_capacity w;
                  buffer := _; buffer_size := S (buffer_size w);
                  weights_buffer := weights_buffer w;
                  commits := commits w |}).
    destruct (IH w1) as (w' & Ha & Hs & Hc & Hwb & Hcm & Hbs & Hlen & Htk).
    { unfold w1. cbn [buffer_size buffer]. rewrite length_insert. lia. }
    exists w'. split; [exact Ha |].
    unfold w1 in Hs, Hc, Hwb, Hcm, Hbs, Hlen, Htk.
    cbn [super buffer_capacity weights_buffer commits buffer_size buffer]
      in Hs, Hc, Hwb, Hcm, Hbs, Hlen, Htk.
    rewrite length_insert in Hlen. rewrite take_S_insert in Htk by exact Hlt.
    repeat (split; [assumption || (cbn [length]; lia) |]).
    rewrite Htk. cbn [map]. now rewrite <- (assoc_L (++)).
Qed.

Lemma points_bytes_buffered (dt : DataType) (tcks : list Streamline) :
  points_bytes dt (buffered_points tcks) = data_bytes dt tcks.
Proof.
  unfold buffered_points, data_bytes.
  induction tcks as [| tck tcks IH]; [reflexivity |].
  cbn [map concat]. rewrite points_bytes_app, IH. f_equal.
  unfold streamline_bytes. destruct (points tck) as [| p ps]; [reflexivity |].
  rewrite points_bytes_app. f_equal. unfold points_bytes. simpl.
  now rewrite app_nil_r.
Qed.

Lemma buffered_points_app (tcks tcks' : list Streamline) :
  buffered_points (tcks ++ tcks')
  = buffered_points tcks ++ buffered_points tcks'.
Proof. unfold buffered_points. now rewrite map_app, concat_app. Qed.

Lemma data_bytes_app (dt : DataType) (tcks tcks' : list Streamline) :
  data_bytes dt (tcks ++ tcks') = data_bytes dt tcks ++ data_bytes dt tcks'.
Proof. unfold data_bytes. now rewrite map_app, concat_app. Qed.

Lemma data_bytes_single (dt : DataType) (tck : Streamline) :
  data_bytes dt [tck] = streamline_bytes dt tck.
Proof. unfold data_bytes. simpl. now rewrite app_nil_r. Qed.

(** [Writer::commit] puts the points of the buffer in the file and empties
    the buffer *)
Lemma Writer_commit_ok (H : nat) (body : list byte)
    (pending : list Streamline) (w : Writer) (σ : World) :
  Writer_ok H body pending w σ ->
  counts_in_header H (count_offset (super w)) update_counts ->
  exists w' σ',
    Writer_commit w σ = Ok (w', σ')
    /\ Writer_ok H (body ++ data_bytes (wdtype (super w)) pending) [] w' σ'
    /\ commits w' = S (commits w)
    /\ buffer_capacity w' = buffer_capacity w
    /\ name (super w') = name (super w)
    /\ wdtype (super w') = wdtype (super w)
    /\ count_offset (super w') = count_offset (super w)
    /\ count (super w') = count (super w)
    /\ total_count (super w') = total_count (super w)
    /\ (buffered_points pending <> [] ->
        exists g,
          files σ' !! name (super w)
          = Some (update_counts (count_offset (super w)) (count (super w))
                    (total_count (super w)) g)).
Proof.
  intros (Hok & Hlen & Hbs & Hsz & Htk) Hupd.
  unfold TrackFile.Writer_commit.
  destruct (decide (buffer_size w = 0%nat)) as [Hz | Hnz].
  - assert (Hbp : buffered_points pending = []).
    { apply length_zero_iff_nil. lia. }
    assert (Hdb : data_bytes (wdtype (super w)) pending = []).
    { now rewrite <- points_bytes_buffered, Hbp. }
    rewrite Hdb, app_nil_r.
    unfold TrackFile.commit. rewrite Hz.
    destruct (decide (0%nat = 0%nat)) as [_ | ?]; [| lia].
    cbn [mbind result_bind]. cbn beta iota.
    destruct (decide (weights_name (super w) <> EmptyString)) as [Hne | He].
    + destruct (write_weights_ok H body (super w) σ (weights_buffer w) Hok Hne)
        as (wf & Hww & Hok').
      rewrite Hww. cbn [mbind result_bind]. cbn beta iota.
      eexists _, _. split; [reflexivity |].
      split; [| repeat (split; [reflexivity |]); congruence].
      unfold TrackFile.Writer_ok.
      cbn [super buffer buffer_capacity buffer_size].
      split; [exact Hok' |]. split; [exact Hlen |]. split; [lia |].
      split; reflexivity.
    + eexists _, _. split; [reflexivity |].
      split; [| repeat (split; [reflexivity |]); congruence].
      unfold TrackFile.Writer_ok.
      cbn [super buffer buffer_capacity buffer_size].
      split; [exact Hok |]. split; [exact Hlen |]. split; [lia |].
      split; reflexivity.
  - destruct (commit_ok host_le update_counts H body (super w) σ (buffer w)
                (buffer_size w) Hok Hupd) as (g & Hc & _ & _ & Hok').
    { lia. }
    cbv zeta in Hc, Hok'.
    rewrite Hc. cbn [mbind result_bind]. cbn beta iota.
    rewrite Htk, Points_mem_format, points_bytes_buffered in Hok'.
    cbn [weights_name set_barrier_addr].
    destruct (decide (weights_name (super w) <> EmptyString)) as [Hne | He].
    + destruct (write_weights_ok H _ _ _ (weights_buffer w) Hok' Hne)
        as (wf & Hww & Hok'').
      rewrite Hww. cbn [mbind result_bind]. cbn beta iota.
      eexists _, _. split; [reflexivity |].
      split; [| repeat (split; [reflexivity |])].
      * unfold TrackFile.Writer_ok.
        cbn [super buffer buffer_capacity buffer_size].
        split; [exact Hok'' |]. rewrite length_insert.
        split; [exact Hlen |]. split; [lia |]. split; reflexivity.
      * intros _. exists g.
        destruct Hok as (_ & _ & _ & [? | (Hnn & _)]); [congruence |].
        simpl. rewrite lookup_insert_ne by congruence.
        now rewrite lookup_insert_eq.
    + eexists _, _. split; [reflexivity |].
      split; [| repeat (split; [reflexivity |])].
      * unfold TrackFile.Writer_ok.
        cbn [super buffer buffer_capacity buffer_size].
        split; [exact Hok' |]. rewrite length_insert.
        split; [exact Hlen |]. split; [lia |]. split; reflexivity.
      * intros _. exists g. simpl. now rewrite lookup_insert_eq.
Qed.

Lemma add_points_app (ps : list (Point Z)) (d : Point Z) :
  forall w : Writer,
    add_points w (ps ++ [d]) = add_points w ps ≫= fun w => add_point w d.
Proof.
  induction ps as [| p ps IH]; intros w.
  - cbn. now destruct (add_point w d).
  - cbn [app TrackFile.add_points].
    destruct (add_point w p) as [w1 | |]; cbn; [apply IH | reflexivity ..].
Qed.

Lemma Writer_ok_super (H : nat) (body : list byte)
    (pending pending' : list Streamline) (w w' : Writer) (σ : World) :
  Writer_ok H body pending w σ ->
  name (super w') = name (super w) ->
  wdtype (super w') = wdtype (super w) ->
  weights_name (super w') = weights_name (super w) ->
  barrier_addr (super w') = barrier_addr (super w) ->
  buffer_capacity w' = buffer_capacity w ->
  length (buffer w') = length (buffer w) ->
  (buffer_size w' <= buffer_capacity w + 1)%nat ->
  buffer_size w' = length (buffered_points pending') ->
  take (buffer_size w') (buffer w')
  = map (format_point (wdtype (super w))) (buffered_points pending') ->
  Writer_ok H body pending' w' σ.
Proof.
  intros (Hok & Hlen & _ & _ & _) Hn Hd Hwn Hb Hc Hl Hs Hbs Htk.
  unfold TrackFile.Writer_ok. rewrite Hc, Hl, Hd.
  split; [eapply writer_ok_counts; eauto |]. auto.
Qed.

(** what a streamline leaves in the buffer, once there is room for it *)
Lemma Writer_buffer_ok (H : nat) (body : list byte)
    (pending : list Streamline) (w : Writer) (tck : Streamline) (σ : World) :
  Writer_ok H body pending w σ ->
  points tck <> [] ->
  (buffer_size w + length (points tck) <= buffer_capacity w)%nat ->
  exists w1,
    add_points w (points tck ++ [delimiter]) = Ok w1
    /\ super w1 = super w /\ buffer_capacity w1 = buffer_capacity w
    /\ weights_buffer w1 = weights_buffer w /\ commits w1 = commits w
    /\ buffer_size w1 = (buffer_size w + length (points tck) + 1)%nat
    /\ Writer_ok H body (pending ++ [tck]) w1 σ.
Proof.
  intros Hok Hne Hroom.
  pose proof Hok as (Hwok & Hlen & Hsz & Hbs & Htk).
  destruct (add_points_ok (points tck ++ [delimiter]) w)
    as (w1 & Ha & Hs & Hc & Hwb & Hcm & Hbs1 & Hlen1 & Htk1).
  { rewrite length_app. simpl. lia. }
  rewrite length_app in Hbs1. simpl in Hbs1.
  exists w1. split; [exact Ha |].
  split; [exact Hs |]. split; [exact Hc |]. split; [exact Hwb |].
  split; [exact Hcm |]. split; [lia |].
  assert (Hbp : buffered_points (pending ++ [tck])
                = buffered_points pending ++ points tck ++ [delimiter]).
  { rewrite buffered_points_app. f_equal. unfold buffered_points. simpl.
    rewrite app_nil_r. destruct (points tck); [congruence | reflexivity]. }
  apply (Writer_ok_super H body pending _ w); try assumption;
    try (now rewrite Hs).
  - lia.
  - rewrite Hbp, !length_app. simpl. lia.
  - rewrite Htk1, Htk, Hbp. now rewrite !map_app.
Qed.

(** a call of the buffered writer with a streamline that fits the buffer
    returns true. It flushes first exactly when the streamline is not empty
    and does not fit the room left; without a flush the files are left as
    they are. One more streamline is pending afterwards. *)
Lemma Writer_call_ok (H : nat) (body : list byte)
    (pending : list Streamline) (w : Writer) (tck : Streamline) (σ : World) :
  Writer_ok H body pending w σ ->
  counts_in_header H (count_offset (super w)) update_counts ->
  (length (points tck) <= buffer_capacity w)%nat ->
  let flush :=
    bool_decide (points tck <> []
                 /\ (buffer_capacity w < buffer_size w + length (points tck))%nat) in
  exists w' σ',
    Writer_call w tck σ = Ok (true, w', σ')
    /\ Writer_ok H
         (if flush then body ++ data_bytes (wdtype (super w)) pending else body)
         (if flush then [tck] else pending ++ [tck]) w' σ'
    /\ commits w' = (if flush then S (commits w) else commits w)
    /\ (flush = false -> σ' = σ)
    /\ buffer_capacity w' = buffer_capacity w
    /\ name (super w') = name (super w)
    /\ wdtype (super w') = wdtype (super w)
    /\ count_offset (super w') = count_offset (super w)
    /\ total_count (super w') = size_t_incr (total_count (super w))
    /\ count (super w')
       = match points tck with
         | [] => count (super w)
         | _ :: _ => size_t_incr (count (super w))
         end
    /\ buffer_size w'
       = ((if flush then 0 else buffer_size w)
          + match points tck with [] => 0 | _ :: _ => length (points tck) + 1 end)%nat.
Proof.
  intros Hok Hupd Hfit flush.
  assert (Hflush : flush
                   = bool_decide
                       (points tck <> []
                        /\ (buffer_capacity w
                            < buffer_size w + length (points tck))%nat))
    by reflexivity.
  clearbody flush.
  unfold TrackFile.Writer_call.
  destruct (points tck) as [| p ps] eqn:Ept.
  - assert (Hfl : flush = false).
    { rewrite Hflush. apply bool_decide_eq_false_2. tauto. }
    rewrite Hfl. cbn [mbind result_bind]. cbn beta iota.
    eexists _, _. split; [reflexivity |].
    split; [| repeat (split; [reflexivity || auto |]); simpl; lia].
    pose proof Hok as (_ & _ & Hsz & Hbs & Htk).
    assert (Hbp : buffered_points (pending ++ [tck]) = buffered_points pending).
    { rewrite buffered_points_app. unfold buffered_points at 2. simpl.
      rewrite Ept. simpl. now rewrite app_nil_r. }
    apply (Writer_ok_super H body pending _ w); try assumption;
      try reflexivity; rewrite Hbp; assumption.
  - cbn beta iota. rewrite <- Ept in Hfit, Hflush |- *.
    assert (Hne : points tck <> []) by (rewrite Ept; discriminate).
    assert (Htail : forall body1 pending1 w1 σ1,
              Writer_ok H body1 pending1 w1 σ1 ->
              super w1 = super w \/ True ->
              (buffer_size w1 + length (points tck) <= buffer_capacity w1)%nat ->
              exists w',
                (add_points w1 (points tck) ≫= fun w2 =>
                 add_point w2 delimiter ≫= fun w3 =>
                 Ok (set_super
                       (if decide (weights_name (super w3) <> EmptyString)
                        then set_weights_buffer w3
                               (weights_buffer w3 +:+ str_float (weight tck)
                                  +:+ " ")
                        else w3)
                       (incr_count
                          (super
                             (if decide (weights_name (super w3) <> EmptyString)
                              then set_weights_buffer w3
                                     (weights_buffer w3
                                        +:+ str_float (weight tck) +:+ " ")
                              else w3))), σ1))
                = Ok (w', σ1)
                /\ Writer_ok H body1 (pending1 ++ [tck]) w' σ1
                /\ commits w' = commits w1
                /\ buffer_capacity w' = buffer_capacity w1
                /\ name (super w') = name (super w1)
                /\ wdtype (super w') = wdtype (super w1)
                /\ count_offset (super w') = count_offset (super w1)
                /\ total_count (super w') = total_count (super w1)
                /\ count (super w') = size_t_incr (count (super w1))
                /\ buffer_size w'
                   = (buffer_size w1 + length (points tck) + 1)%nat).
    { intros body1 pending1 w1 σ1 Hok1 _ Hroom.
      destruct (Writer_buffer_ok H body1 pending1 w1 tck σ1 Hok1 Hne Hroom)
        as (w3 & Ha & Hs & Hc & Hwb & Hcm & Hbs3 & Hok3).
      rewrite add_points_app in Ha.
      change (TrackFile.add_points host_le w1 (points tck))
        with (add_points w1 (points tck)).
      destruct (add_points w1 (points tck)) as [w2 | |]; cbn in Ha;
        try discriminate.
      cbn [mbind result_bind]. cbn beta iota.
      change (TrackFile.add_point host_le w2 delimiter)
        with (add_point w2 delimiter).
      rewrite Ha. cbn [mbind result_bind]. cbn beta iota.
      eexists. split; [reflexivity |].
      pose proof Hok3 as (_ & Hl3 & Hsz3 & Hbp3 & Htk3).
      destruct (decide (weights_name (super w3) <> EmptyString));
        (split;
         [apply (Writer_ok_super H body1 (pending1 ++ [tck]) _ w3);
          try assumption; try reflexivity; lia |]);
        cbn; rewrite ?Hs, ?Hc, ?Hcm; repeat (split; [reflexivity |]);
        exact Hbs3. }
    destruct (decide (buffer_capacity w
                      < buffer_size w + length (points tck))%nat)
      as [Hover | Hroom].
    + assert (Hfl : flush = true).
      { rewrite Hflush. apply bool_decide_eq_true_2.
        split; [exact Hne | exact Hover]. }
      rewrite Hfl.
      destruct (Writer_commit_ok H body pending w σ Hok Hupd)
        as (w1 & σ1 & Hcm1 & Hok1 & Hc1 & Hcap1 & Hn1 & Hd1 & Ho1 & Hct1
            & Htc1 & _).
      change (TrackFile.Writer_commit host_le update_counts w σ)
        with (Writer_commit w σ).
      rewrite Hcm1. cbn [mbind result_bind]. cbn beta iota.
      pose proof Hok1 as (_ & _ & _ & Hbs1 & _). simpl in Hbs1.
      destruct (Htail _ _ w1 σ1 Hok1 (or_intror I))
        as (w' & Ht & Hok' & Hc' & Hcap' & Hn' & Hd' & Ho' & Htc' & Hct'
            & Hbs').
      { rewrite Hbs1, Hcap1. simpl. exact Hfit. }
      rewrite Ept in Ht |- *. rewrite Ht.
      cbn [mbind result_bind]. cbn beta iota.
      eexists _, _. split; [reflexivity |].
      split.
      { apply (Writer_ok_super H _ ([] ++ [tck]) _ w'); try assumption;
          try reflexivity.
        - destruct Hok' as (_ & _ & Hsz' & _). exact Hsz'.
        - now destruct Hok' as (_ & _ & _ & Hb' & _).
        - now destruct Hok' as (_ & _ & _ & _ & Ht'). }
      cbn. rewrite Hc', Hc1, Hcap', Hcap1, Hn', Hn1, Hd', Hd1, Ho', Ho1.
      rewrite Htc', Htc1, Hct', Hct1, Hbs', Hbs1, Ept.
      repeat (split; [reflexivity || discriminate |]). simpl. lia.
    + assert (Hfl : flush = false).
      { rewrite Hflush. apply bool_decide_eq_false_2. intros [_ Hx]. lia. }
      rewrite Hfl. cbn [mbind result_bind]. cbn beta iota.
      destruct (Htail _ _ w σ Hok (or_intror I))
        as (w' & Ht & Hok' & Hc' & Hcap' & Hn' & Hd' & Ho' & Htc' & Hct'
            & Hbs').
      { lia. }
      rewrite Ept in Ht |- *. rewrite Ht.
      cbn [mbind result_bind]. cbn beta iota.
      eexists _, _. split; [reflexivity |].
      split.
      { apply (Writer_ok_super H _ (pending ++ [tck]) _ w'); try assumption;
          try reflexivity.
        - destruct Hok' as (_ & _ & Hsz' & _). exact Hsz'.
        - now destruct Hok' as (_ & _ & _ & Hb' & _).
        - now destruct Hok' as (_ & _ & _ & _ & Ht'). }
      cbn. rewrite Hc', Hcap', Hn', Hd', Ho', Htc', Hct', Hbs', Ept.
      repeat (split; [reflexivity |]). simpl. lia.
Qed.

Lemma buffered_points_single (tck : Streamline) :
  points tck <> [] -> buffered_points [tck] <> [].
Proof.
  unfold buffered_points. simpl. destruct (points tck); [congruence |].
  discriminate.
Qed.

(** any number of calls with streamlines that fit the buffer return; the
    file and the buffer together hold the data of all the streamlines *)
Lemma Writer_calls_ok (tcks : list Streamline) :
  forall (H : nat) (body : list byte) (pending : list Streamline)
         (w : Writer) (σ : World),
    Writer_ok H body pending w σ ->
    counts_in_header H (count_offset (super w)) update_counts ->
    Forall (fun tck => (length (points tck) <= buffer_capacity w)%nat) tcks ->
    exists w' σ' body' pending',
      Writer_calls w tcks σ = Ok (w', σ')
      /\ Writer_ok H body' pending' w' σ'
      /\ body' ++ data_bytes (wdtype (super w)) pending'
         = body ++ data_bytes (wdtype (super w)) pending
             ++ data_bytes (wdtype (super w)) tcks
      /\ buffer_capacity w' = buffer_capacity w
      /\ name (super w') = name (super w)
      /\ wdtype (super w') = wdtype (super w)
      /\ count_offset (super w') = count_offset (super w)
      /\ total_count (super w')
         = Nat.iter (length tcks) size_t_incr (total_count (super w))
      /\ (buffered_points pending' = [] ->
          buffered_points pending = [] /\ buffered_points tcks = []).
Proof.
  induction tcks as [| tck tcks IH]; intros H body pending w σ Hok Hupd Hfit.
  - exists w, σ, body, pending. cbn. rewrite app_nil_r.
    repeat (split; [reflexivity || assumption |]). auto.
  - apply Forall_cons in Hfit as [Hfit1 Hfit].
    destruct (Writer_call_ok H body pending w tck σ Hok Hupd Hfit1)
      as (w1 & σ1 & Hc & Hok1 & _ & _ & Hcap1 & Hn1 & Hd1 & Ho1 & Ht1 & _).
    set (flush := bool_decide _) in Hok1.
    destruct (IH H _ _ w1 σ1 Hok1)
      as (w' & σ' & body' & pending' & Hcs & Hok' & Hdata & Hcap' & Hn'
          & Hd' & Ho' & Ht' & Hemp).
    { now rewrite Ho1. }
    { now rewrite Hcap1. }
    exists w', σ', body', pending'. cbn [TrackFile.Writer_calls].
    change (TrackFile.Writer_call host_le update_counts str_float w tck σ)
      with (Writer_call w tck σ).
    rewrite Hc. cbn [mbind result_bind]. cbn beta iota.
    split; [exact Hcs |]. split; [exact Hok' |].
    rewrite Hd1 in Hdata.
    split.
    { rewrite Hdata.
      change (tck :: tcks) with ([tck] ++ tcks).
      rewrite (data_bytes_app _ [tck] tcks).
      destruct flush; rewrite ?data_bytes_app, <- ?(assoc_L (++));
        reflexivity. }
    rewrite Hcap', Hcap1, Hn', Hn1, Hd', Hd1, Ho', Ho1, Ht', Ht1.
    repeat (split; [reflexivity |]).
    split.
    { cbn [length]. rewrite Nat.iter_succ. apply iter_size_t_incr_comm. }
    intros He. destruct (Hemp He) as [He1 He2].
    change (tck :: tcks) with ([tck] ++ tcks).
    rewrite buffered_points_app, He2, app_nil_r.
    destruct flush eqn:Hfl.
    + exfalso. apply bool_decide_eq_true_1 in Hfl as [Hne _].
      now apply (buffered_points_single tck).
    + rewrite buffered_points_app in He1.
      apply app_eq_nil in He1 as [-> ->]. auto.
Qed.

End Writer_buffered_properties.

(** *** The claims about the track file *)

Lemma write_at_header_only (H offset : nat) (bs : list byte) :
  (offset + length bs <= H)%nat -> header_only H (write_at offset bs).
Proof.
  intros Hb f Hf. unfold write_at.
  replace (offset - length f)%nat with 0%nat by lia. cbn [replicate app].
  split.
  - rewrite !length_app, length_take, length_drop. lia.
  - rewrite (assoc_L (++)).
    rewrite drop_app_ge by (rewrite length_app, length_take; lia).
    rewrite length_app, length_take, drop_drop. f_equal. lia.
Qed.

Lemma Example_counts_in_header :
  counts_in_header 17 1 Example.update_counts.
Proof.
  intros c t. unfold Example.update_counts. apply write_at_header_only.
  rewrite length_app, !length_le_bytes. lia.
Qed.


Section Track_file_claims.

Variable host_le : bool.
Variable Point_default : nat -> Z.
Variable float_of_double : Z -> Z.
Variable create : DataType -> Properties -> list byte * nat.
Variable update_counts : nat -> Z -> Z -> list byte -> list byte.
Variable str_float : Z -> string.
Variable open : list byte -> result (Properties * DataType * nat).
Variable load : list byte -> result (list Z).

Local Abbreviation WriterUnbuffered_new :=
  (TrackFile.WriterUnbuffered_new host_le create).
Local Abbreviation WriterUnbuffered_call :=
  (TrackFile.WriterUnbuffered_call host_le Point_default update_counts str_float).
Local Abbreviation WriterUnbuffered_calls :=
  (TrackFile.WriterUnbuffered_calls host_le Point_default update_counts
     str_float).
Local Abbreviation Writer_new := (TrackFile.Writer_new host_le Point_default create).
Local Abbreviation Writer_commit := (TrackFile.Writer_commit host_le update_counts).
Local Abbreviation Writer_call :=
  (TrackFile.Writer_call host_le update_counts str_float).
Local Abbreviation Writer_calls :=
  (TrackFile.Writer_calls host_le update_counts str_float).
Local Abbreviation Writer_delete := (TrackFile.Writer_delete host_le update_counts).
Local Abbreviation Writer_ok := (TrackFile.Writer_ok host_le).
Local Abbreviation Reader_new := (TrackFile.Reader_new open load).
Local Abbreviation Reader_all :=
  (TrackFile.Reader_all host_le Point_default float_of_double).

(** C2, as the code has it: for a streamline of [n] points, [n > 0], the
    bytes of the file from the previous barrier on are [n] barrier points,
    not the points of the streamline, then the delimiter and the new
    barrier, at which [barrier_addr] points afterwards; the header was
    rewritten with [count] and [total_count] as they were before the call,
    and both are incremented in the writer. *)
Theorem WriterUnbuffered_call_writes_barriers (H : nat) (body : list byte)
    (w : WriterUnbuffered) (tck : Streamline) (σ : World) :
  writer_ok H body w σ ->
  counts_in_header H (count_offset w) update_counts ->
  points tck <> [] ->
  exists w' σ' f g,
    WriterUnbuffered_call w tck σ = Ok (true, w', σ')
    /\ files σ' !! name w = Some f
    /\ f = update_counts (count_offset w) (count w) (total_count w) g
    /\ drop (barrier_addr w) f
       = points_bytes (wdtype w) (replicate (length (points tck)) barrier)
           ++ point_bytes (wdtype w) delimiter
           ++ point_bytes (wdtype w) barrier
    /\ barrier_addr w' = (barrier_addr w + 12 * (length (points tck) + 1))%nat
    /\ count w' = size_t_incr (count w)
    /\ total_count w' = size_t_incr (total_count w).
Proof.
  intros Hok Hupd Hne.
  destruct (WriterUnbuffered_call_ok host_le Point_default update_counts
              str_float H body w tck σ Hok Hupd)
    as (w' & σ' & Hc & Hok' & _ & _ & _ & _ & Htc & Hct & Hfile).
  destruct (Hfile Hne) as (g & Hf & Hg & Hb).
  exists w', σ', (update_counts (count_offset w) (count w) (total_count w) g), g.
  split; [exact Hc |]. split; [exact Hf |]. split; [reflexivity |].
  split; [| split; [exact Hb | split; [| exact Htc]]].
  - destruct Hok as (_ & _ & Hba & _).
    assert (Hlg : (barrier_addr w <= length g)%nat).
    { destruct (decide (barrier_addr w <= length g)%nat) as [? | Hgt];
        [assumption |].
      rewrite drop_ge in Hg by lia. symmetry in Hg.
      apply app_eq_nil in Hg as [_ Hg].
      apply (f_equal length) in Hg. rewrite length_point_bytes in Hg.
      discriminate. }
    destruct (Hupd (count w) (total_count w) g) as [_ Hd]; [lia |].
    replace (barrier_addr w) with (H + length body)%nat at 1 by lia.
    rewrite <- drop_drop, Hd, drop_drop.
    replace (H + length body)%nat with (barrier_addr w) by lia.
    rewrite Hg. unfold unbuffered_bytes.
    destruct (points tck); [congruence |]. now rewrite <- (assoc_L (++)).
  - rewrite Hct. destruct (points tck); [congruence | reflexivity].
Qed.

(** a buffered writer that was constructed has an empty buffer of
    [buffer_capacity + 2] points and a file made of the header and the
    barrier *)
Lemma Writer_new_ok (file : string) (dt : DataType) (props : Properties)
    (default_buffer_capacity : Z) (σ0 σ1 : World) (w : Writer) :
  Writer_new file dt props default_buffer_capacity σ0 = Ok (w, σ1) ->
  tck_weights_out σ0 <> Some file ->
  Writer_ok (length (create dt props).1) [] [] w σ1
  /\ name (super w) = file /\ wdtype (super w) = dt
  /\ count_offset (super w) = (create dt props).2
  /\ total_count (super w) = 0
  /\ commits w = 0%nat /\ buffer_size w = 0%nat
  /\ (tck_weights_out σ0 = None -> weights_name (super w) = EmptyString).
Proof.
  unfold TrackFile.Writer_new. intros Hnew Hopt.
  destruct (TrackFile.WriterUnbuffered_new host_le create file dt props σ0)
    as [[u σ] | |] eqn:Hu; cbn in Hnew; try discriminate.
  injection Hnew as <- <-.
  destruct (WriterUnbuffered_new_ok host_le create file dt props σ0 σ u Hu Hopt)
    as (Hok & Hn & Hd & Ho & _ & Ht & _ & Hwn).
  cbn [super commits buffer_size].
  split; [| repeat (split; [assumption || reflexivity |]); exact Hwn].
  unfold TrackFile.Writer_ok. cbn [super buffer buffer_capacity buffer_size].
  split; [exact Hok |]. rewrite length_replicate.
  split; [reflexivity |]. split; [lia |]. split; reflexivity.
Qed.


Lemma add_points_inv (ps : list (Point Z)) :
  forall w w' : Writer,
    TrackFile.add_points host_le w ps = Ok w' ->
    commits w' = commits w
    /\ buffer_size w' = (buffer_size w + length ps)%nat
    /\ super w' = super w.
Proof.
  induction ps as [| p ps IH]; intros w w' Ha.
  - injection Ha as <-. cbn. auto with lia.
  - cbn [TrackFile.add_points] in Ha. unfold TrackFile.add_point at 1 in Ha.
    destruct (store _ _ _) as [b | |]; cbn in Ha; try discriminate.
    apply IH in Ha as (-> & -> & ->). cbn. auto with lia.
Qed.

Lemma Writer_commit_inv (w w1 : Writer) (σ σ1 : World) :
  Writer_commit w σ = Ok (w1, σ1) ->
  commits w1 = S (commits w) /\ buffer_size w1 = 0%nat.
Proof.
  unfold TrackFile.Writer_commit.
  destruct (TrackFile.commit _ _ _ _ _ _) as [[[u data] σ'] | |]; cbn;
    try discriminate.
  destruct (decide _).
  - destruct (write_weights _ _ _); cbn; try discriminate.
    now intros [= <- _].
  - now intros [= <- _].
Qed.

(** C8: a call of the buffered writer flushes the buffer exactly when the
    streamline has points and [buffer_size] plus their number exceeds
    [buffer_capacity], and it does so before the points are placed in the
    buffer; otherwise it leaves the files as they are. Closing the writer
    flushes once. With a capacity of 2 points, the call with a streamline
    of 3 points on a new writer flushes exactly once, writes nothing, and
    leaves the 3 points and the delimiter in the buffer. In the state kept
    between two calls, the call with a streamline that fits in the buffer
    returns, and so does closing. *)
Theorem Writer_flushes_on_overflow (w : Writer) (tck : Streamline) (σ : World) :
  (forall b w' σ',
     Writer_call w tck σ = Ok (b, w', σ') ->
     (points tck <> []
      /\ (buffer_capacity w < buffer_size w + length (points tck))%nat ->
      commits w' = S (commits w)
      /\ buffer_size w' = (length (points tck) + 1)%nat
      /\ exists w1, Writer_commit w σ = Ok (w1, σ'))
     /\ (~ (points tck <> []
            /\ (buffer_capacity w < buffer_size w + length (points tck))%nat) ->
         commits w' = commits w /\ σ' = σ))
  /\ (forall w' σ',
        Writer_delete w σ = Ok (w', σ') ->
        commits w' = S (commits w) /\ buffer_size w' = 0%nat)
  /\ (forall file dt props default_buffer_capacity σ0,
        Writer_new file dt props default_buffer_capacity σ0 = Ok (w, σ) ->
        tck_weights_out σ0 = None ->
        buffer_capacity w = 2%nat -> length (points tck) = 3%nat ->
        exists w',
          Writer_call w tck σ = Ok (true, w', σ)
          /\ commits w' = 1%nat /\ buffer_size w' = 4%nat
          /\ take 4 (buffer w')
             = map (TrackFile.format_point host_le dt)
                 (points tck ++ [delimiter]))
  /\ (forall H body pending,
        Writer_ok H body pending w σ ->
        counts_in_header H (count_offset (super w)) update_counts ->
        (length (points tck) <= buffer_capacity w)%nat ->
        (exists w' σ', Writer_call w tck σ = Ok (true, w', σ'))
        /\ (exists w' σ', Writer_delete w σ = Ok (w', σ'))).
Proof.
  split; [| split; [| split]].
  - intros b w' σ' Hc. unfold TrackFile.Writer_call in Hc.
    destruct (points tck) as [| p ps] eqn:Ept.
    + cbn in Hc. injection Hc as <- <- <-.
      split; [intros [Hne _]; congruence | auto].
    + cbn beta iota in Hc. rewrite <- Ept in Hc |- *.
      assert (Hne : points tck <> []) by (rewrite Ept; discriminate).
      destruct (decide (buffer_capacity w
                        < buffer_size w + length (points tck))%nat)
        as [Hover | Hroom].
      * destruct (TrackFile.Writer_commit host_le update_counts w σ)
          as [[w1 σ1] | |] eqn:Hcm; cbn in Hc; try discriminate.
        destruct (TrackFile.add_points host_le w1 (points tck))
          as [w2 | |] eqn:Ha; cbn in Hc; try discriminate.
        unfold TrackFile.add_point in Hc.
        destruct (store _ _ _) as [buf | |]; cbn in Hc; try discriminate.
        apply Writer_commit_inv in Hcm as Hinv. destruct Hinv as [Hc1 Hb1].
        apply add_points_inv in Ha as (Hc2 & Hb2 & _).
        split; [| intros Hn; exfalso; apply Hn; auto]. intros _.
        destruct (decide _); injection Hc as <- <- <-; cbn;
          (split; [congruence | split; [lia | eauto]]).
      * cbn in Hc.
        destruct (TrackFile.add_points host_le w (points tck))
          as [w2 | |] eqn:Ha; cbn in Hc; try discriminate.
        unfold TrackFile.add_point in Hc.
        destruct (store _ _ _) as [buf | |]; cbn in Hc; try discriminate.
        apply add_points_inv in Ha as (Hc2 & Hb2 & _).
        split; [tauto |]. intros _.
        destruct (decide _); injection Hc as <- <- <-; cbn; auto.
  - intros w' σ' Hd. now apply Writer_commit_inv in Hd.
  - intros file dt props dflt σ0 Hnew Hnone Hcap Hlen.
    destruct (Writer_new_ok file dt props dflt σ0 σ w Hnew)
      as (Hok & _ & Hd & _ & _ & Hcm & Hbs & Hwn).
    { rewrite Hnone. discriminate. }
    specialize (Hwn Hnone).
    destruct Hok as (_ & Hl & _ & _ & _).
    destruct (add_points_ok host_le (points tck ++ [delimiter])
                {| super := super w; buffer_capacity := buffer_capacity w;
                   buffer := buffer w; buffer_size := 0;
                   weights_buffer := weights_buffer w; commits := 1 |})
      as (w3 & Ha & Hs3 & Hc3 & Hw3 & Hcm3 & Hbs3 & Hl3 & Htk3).
    { cbn. rewrite length_app, Hl, Hcap, Hlen. simpl. lia. }
    cbn [super buffer_size buffer commits weights_buffer buffer_capacity]
      in Hs3, Hc3, Hw3, Hcm3, Hbs3, Hl3, Htk3.
    rewrite length_app, Hlen in Hbs3. simpl in Hbs3.
    rewrite Hbs3 in Htk3. cbn [take app] in Htk3. rewrite Hd in Htk3.
    rewrite add_points_app in Ha.
    unfold TrackFile.Writer_call.
    destruct (points tck) as [| p ps] eqn:Ept; [discriminate |].
    cbn beta iota. rewrite <- Ept in Ha, Hlen, Htk3 |- *.
    destruct (decide _) as [_ | Hroom]; [| lia].
    unfold TrackFile.Writer_commit, TrackFile.commit. rewrite Hbs.
    destruct (decide (0%nat = 0%nat)) as [_ | ?]; [| lia].
    cbn [mbind result_bind]. cbn beta iota.
    destruct (decide (weights_name (super w) <> EmptyString)) as [? | _];
      [congruence |].
    rewrite Hcm. cbn [mbind result_bind]. cbn beta iota.
    destruct (TrackFile.add_points host_le _ (points tck)) as [w2 | |];
      cbn in Ha; try discriminate.
    cbn [mbind result_bind]. cbn beta iota. rewrite Ha.
    cbn [mbind result_bind]. cbn beta iota. rewrite Hs3.
    destruct (decide (weights_name (super w) <> EmptyString)) as [? | _];
      [congruence |].
    eexists. split; [reflexivity |]. cbn. rewrite Hcm3, Hbs3.
    split; [reflexivity |]. split; [reflexivity | exact Htk3].
  - intros H body pending Hok Hupd Hfit. split.
    + destruct (Writer_call_ok host_le update_counts str_float H body pending
                  w tck σ Hok Hupd Hfit) as (w' & σ' & Hc & _).
      eauto.
    + destruct (Writer_commit_ok host_le update_counts H body pending w σ
                  Hok Hupd) as (w' & σ' & Hc & _).
      eauto.
Qed.

Lemma length_read_back (tcks : list Streamline) :
  forall i, (length (read_back i tcks) <= length tcks)%nat.
Proof.
  induction tcks as [| tck tcks IH]; intros i; cbn [read_back length]; [lia |].
  destruct (points tck); cbn [length].
  - specialize (IH i). lia.
  - specialize (IH (size_t_incr i)). lia.
Qed.


End Track_file_claims.

(** *** The claims on a little-endian machine, with the example header *)



Lemma is_point_example :
  Forall is_point (points (Example.tck3 one)).
Proof.
  unfold Example.tck3. cbn [points].
  repeat first [apply Forall_nil_2 | apply Forall_cons_2];
    unfold is_point, is_float, Example.f1, Example.f2, Example.f3;
    cbn [p0 p1 p2]; change (2 ^ 32) with 4294967296;
    (split; [lia | split; [lia | split; [lia | split; vm_compute; reflexivity]]]).
Qed.
Lemma WriterUnbuffered_call_writes_barriers_witness :
  exists w σ w' σ' f,
    TrackFile.WriterUnbuffered_new true Example.create "t.tck" Float32LE ∅
      (Example.world true None) = Ok (w, σ)
    /\ TrackFile.WriterUnbuffered_call true (fun _ => 0) Example.update_counts
         Example.str_float w (Example.tck3 one) σ = Ok (true, w', σ')
    /\ files σ' !! "t.tck"%string = Some f
    /\ drop 17 f
       = points_bytes Float32LE (replicate 3 barrier)
           ++ point_bytes Float32LE delimiter ++ point_bytes Float32LE barrier
    /\ drop 17 f
       <> points_bytes Float32LE (points (Example.tck3 one))
            ++ point_bytes Float32LE delimiter
            ++ point_bytes Float32LE barrier.
Proof.
  eassert (Hnew : TrackFile.WriterUnbuffered_new true Example.create "t.tck"
                    Float32LE ∅ (Example.world true None) = Ok (_, _))
    by (vm_compute; reflexivity).
  destruct (WriterUnbuffered_new_ok _ _ _ _ _ _ _ _ Hnew ltac:(discriminate))
    as (Hok & _).
  destruct (WriterUnbuffered_call_writes_barriers true (fun _ => 0)
              Example.update_counts Example.str_float _ _ _
              (Example.tck3 one) _ Hok Example_counts_in_header
              ltac:(discriminate))
    as (w' & σ' & f & g & Hc & Hf & _ & Hd & _).
  eexists _, _, w', σ', f.
  split; [exact Hnew |]. split; [exact Hc |]. split; [exact Hf |].
  split; [exact Hd |]. intros E.
  assert (Habs := eq_trans (eq_sym Hd) E).
  vm_compute in Habs. discriminate Habs.
Defined.


Lemma Writer_flushes_on_overflow_witness :
  exists w σ w',
    TrackFile.Writer_new true (fun _ => 0) Example.create "t.tck" Float32LE ∅
      16777216 (Example.world true (Some 24)) = Ok (w, σ)
    /\ buffer_capacity w = 2%nat
    /\ TrackFile.Writer_call true Example.update_counts Example.str_float w
         (Example.tck3 one) σ = Ok (true, w', σ)
    /\ commits w' = 1%nat /\ buffer_size w' = 4%nat
    /\ take 4 (buffer w')
       = map (TrackFile.format_point true Float32LE)
           (points (Example.tck3 one) ++ [delimiter]).
Proof.
  eassert (Hnew : TrackFile.Writer_new true (fun _ => 0) Example.create
                    "t.tck" Float32LE ∅ 16777216
                    (Example.world true (Some 24)) = Ok (_, _))
    by (vm_compute; reflexivity).
  lazymatch type of Hnew with
  | _ = Ok (?w, ?σ) =>
      destruct (Writer_flushes_on_overflow true (fun _ => 0) Example.create
                  Example.update_counts Example.str_float w
                  (Example.tck3 one) σ)
        as (_ & _ & Hsc & _)
  end.
  destruct (Hsc "t.tck"%string Float32LE ∅ 16777216%Z
              (Example.world true (Some 24)) Hnew eq_refl eq_refl eq_refl)
    as (w' & Hc & Hcm & Hbs & Htk).
  eexists _, _, w'.
  split; [exact Hnew |]. split; [reflexivity |]. split; [exact Hc |].
  split; [exact Hcm |]. split; [exact Hbs | exact Htk].
Defined.


(** *** Further properties of the track file code *)

Section Track_file_more.

Variable host_le : bool.
Variable Point_default : nat -> Z.
Variable float_of_double : Z -> Z.
Variable create : DataType -> Properties -> list byte * nat.
Variable update_counts : nat -> Z -> Z -> list byte -> list byte.
Variable str_float : Z -> string.
Variable open : list byte -> result (Properties * DataType * nat).
Variable load : list byte -> result (list Z).

Local Abbreviation WriterUnbuffered_new :=
  (TrackFile.WriterUnbuffered_new host_le create).
Local Abbreviation WriterUnbuffered_calls :=
  (TrackFile.WriterUnbuffered_calls host_le Point_default update_counts
     str_float).
Local Abbreviation Writer_new := (TrackFile.Writer_new host_le Point_default create).
Local Abbreviation Writer_call :=
  (TrackFile.Writer_call host_le update_counts str_float).
Local Abbreviation Writer_delete := (TrackFile.Writer_delete host_le update_counts).
Local Abbreviation Reader_new := (TrackFile.Reader_new open load).
Local Abbreviation Reader_call :=
  (TrackFile.Reader_call host_le Point_default float_of_double).

(** the settings of the application are not changed by the constructor *)
Lemma WriterUnbuffered_new_settings (file : string) (dt : DataType)
    (props : Properties) (σ0 σ1 : World) (w : WriterUnbuffered) :
  WriterUnbuffered_new file dt props σ0 = Ok (w, σ1) ->
  TrackWriterBufferSize σ1 = TrackWriterBufferSize σ0
  /\ overwrite_files σ1 = overwrite_files σ0
  /\ readonly σ1 = readonly σ0.
Proof.
  unfold TrackFile.WriterUnbuffered_new, ofstream_trunc.
  destruct (writable file σ0); [| discriminate].
  destruct (create dt props) as [h off].
  cbn [tck_weights_out set_file].
  destruct (tck_weights_out σ0) as [path |].
  - unfold set_weights_path, ofstream_trunc.
    destruct (decide _); [discriminate |].
    destruct (negb _ && _); [discriminate |].
    destruct (writable _ _); [| discriminate].
    intros [= <- <-]. auto.
  - intros [= <- <-]. auto.
Qed.

(** X1: when the option tck_weights_out is not given, the constructor of
    the unbuffered writer returns exactly when the track file can be opened
    for writing; the file then holds the header block followed by the
    barrier, every other file is as before, [barrier_addr] is the length of
    the header, both counts are 0 and no weights path is set. *)
Theorem WriterUnbuffered_new_creates (file : string) (dt : DataType)
    (props : Properties) (σ0 : World) :
  tck_weights_out σ0 = None ->
  (writable file σ0 = true ->
   exists w σ1,
     WriterUnbuffered_new file dt props σ0 = Ok (w, σ1)
     /\ files σ1 = <[file := (create dt props).1 ++ point_bytes dt barrier]>
                     (files σ0)
     /\ barrier_addr w = length (create dt props).1
     /\ name w = file /\ count w = 0 /\ total_count w = 0
     /\ weights_name w = EmptyString)
  /\ (writable file σ0 = false ->
      WriterUnbuffered_new file dt props σ0
      = Exception ("error creating tracks file " ++ file)).
Proof.
  intros Hopt. unfold TrackFile.WriterUnbuffered_new, ofstream_trunc.
  split; intros Hwr; rewrite Hwr; [| reflexivity].
  destruct (create dt props) as [h off]. cbn [fst snd].
  rewrite write_at_end, Point_mem_format_point.
  cbn [tck_weights_out set_file]. rewrite Hopt.
  eexists _, _. split; [reflexivity |]. cbn.
  split; [apply insert_insert_eq |]. auto.
Qed.

(** X2: when the option tck_weights_out is given without the option -force,
    the constructor of the unbuffered writer throws, whatever the paths: it
    has just created the track file, whose existence [set_weights_path]
    takes for that of the weights file. *)
Theorem WriterUnbuffered_new_weights_no_force (file path : string)
    (dt : DataType) (props : Properties) (σ0 : World) :
  tck_weights_out σ0 = Some path ->
  overwrite_files σ0 = false ->
  exists msg, WriterUnbuffered_new file dt props σ0 = Exception msg.
Proof.
  intros Hopt Hforce. unfold TrackFile.WriterUnbuffered_new, ofstream_trunc.
  destruct (writable file σ0); [| eauto].
  destruct (create dt props) as [h off].
  cbn [tck_weights_out set_file]. rewrite Hopt.
  unfold set_weights_path. cbn [weights_name set_weights_name name].
  destruct (decide _) as [Hne | _]; [congruence |].
  change (overwrite_files (set_file ?p ?f (set_file ?p' ?f' σ0)))
    with (overwrite_files σ0).
  rewrite Hforce. unfold Path_exists.
  rewrite bool_decide_eq_true_2; [cbn; eauto |].
  unfold set_file at 1. cbn [files]. rewrite lookup_insert_eq. eauto.
Qed.


(** X4: on a new buffered writer, the call with a streamline of one point
    more than the capacity returns, and leaves the array full, the
    delimiter in its last element; closing the writer then stores the
    barrier past the end of the array. *)
Theorem Writer_delete_past_buffer (file : string) (dt : DataType)
    (props : Properties) (default_buffer_capacity : Z) (σ0 σ : World)
    (w : Writer) (tck : Streamline) :
  Writer_new file dt props default_buffer_capacity σ0 = Ok (w, σ) ->
  tck_weights_out σ0 = None ->
  length (points tck) = S (buffer_capacity w) ->
  exists w',
    Writer_call w tck σ = Ok (true, w', σ)
    /\ buffer_size w' = length (buffer w')
    /\ buffer w' !! (buffer_capacity w + 1)%nat
       = Some (TrackFile.format_point host_le dt delimiter)
    /\ Writer_delete w' σ = Undefined.
Proof.
  intros Hnew Hnone Hlen.
  destruct (Writer_new_ok host_le Point_default create file dt props
              default_buffer_capacity σ0 σ w Hnew)
    as (Hok & _ & Hd & _ & _ & Hcm & Hbs & Hwn).
  { rewrite Hnone. discriminate. }
  specialize (Hwn Hnone).
  destruct Hok as (_ & Hl & _ & _ & _).
  destruct (add_points_ok host_le (points tck ++ [delimiter])
              {| super := super w; buffer_capacity := buffer_capacity w;
                 buffer := buffer w; buffer_size := 0;
                 weights_buffer := weights_buffer w; commits := 1 |})
    as (w3 & Ha & Hs3 & Hc3 & Hw3 & Hcm3 & Hbs3 & Hl3 & Htk3).
  { cbn. rewrite length_app, Hl, Hlen. simpl. lia. }
  cbn [super buffer_size buffer commits weights_buffer buffer_capacity]
    in Hs3, Hc3, Hw3, Hcm3, Hbs3, Hl3, Htk3.
  rewrite length_app, Hlen in Hbs3. simpl in Hbs3.
  rewrite take_0 in Htk3. cbn [app] in Htk3. rewrite Hd in Htk3.
  rewrite add_points_app in Ha.
  unfold TrackFile.Writer_call.
  destruct (points tck) as [| p ps] eqn:Ept; [discriminate |].
  cbn beta iota. rewrite <- Ept in Ha, Hlen, Htk3 |- *.
  destruct (decide _) as [_ | Hroom]; [| lia].
  unfold TrackFile.Writer_commit at 1. unfold TrackFile.commit at 1.
  rewrite Hbs.
  destruct (decide (0%nat = 0%nat)) as [_ | ?]; [| lia].
  cbn [mbind result_bind]. cbn beta iota.
  destruct (decide (weights_name (super w) <> EmptyString)) as [? | _];
    [congruence |].
  rewrite Hcm. cbn [mbind result_bind]. cbn beta iota.
  destruct (TrackFile.add_points host_le _ (points tck)) as [w2 | |];
    cbn in Ha; try discriminate.
  cbn [mbind result_bind]. cbn beta iota. rewrite Ha.
  cbn [mbind result_bind]. cbn beta iota. rewrite Hs3.
  destruct (decide (weights_name (super w) <> EmptyString)) as [? | _];
    [congruence |].
  eexists. split; [reflexivity |].
  cbn [buffer_size buffer set_super].
  assert (Hfull : buffer_size w3 = length (buffer w3)) by (rewrite Hl3, Hl; lia).
  split; [exact Hfull |]. split.
  - assert (Hk : take (buffer_size w3) (buffer w3) !! (buffer_capacity w + 1)%nat
                 = Some (TrackFile.format_point host_le dt delimiter)).
    { rewrite Htk3, map_app.
      rewrite lookup_app_r by (rewrite length_map, Hlen; lia).
      rewrite length_map, Hlen.
      replace (buffer_capacity w + 1 - S (buffer_capacity w))%nat with 0%nat
        by lia.
      reflexivity. }
    rewrite lookup_take_lt in Hk by lia. exact Hk.
  - unfold TrackFile.Writer_delete, TrackFile.Writer_commit, TrackFile.commit.
    cbn [buffer_size buffer super set_super].
    destruct (decide (buffer_size w3 = 0%nat)) as [? | _]; [lia |].
    unfold store. destruct (decide _) as [? | _]; [lia | reflexivity].
Qed.

(** X5: a file written by the unbuffered writer holds barriers where the
    points of the first streamline with points should be: a reader of the
    file returns false at its first call, without a streamline, closes the
    file, and returns false at every later call. *)
Theorem WriterUnbuffered_Reader_nothing (file : string) (dt : DataType)
    (props : Properties) (σ0 σ1 : World) (w0 : WriterUnbuffered)
    (tck : Streamline) (tcks : list Streamline) :
  counts_in_header (length (create dt props).1) (create dt props).2
    update_counts ->
  dt = Float32LE \/ dt = Float32BE ->
  tck_weights_out σ0 <> Some file ->
  WriterUnbuffered_new file dt props σ0 = Ok (w0, σ1) ->
  points tck <> [] ->
  exists w σ f,
    WriterUnbuffered_calls w0 (tck :: tcks) σ1 = Ok (w, σ)
    /\ files σ !! file = Some f
    /\ (forall σr properties tck0 tck1,
          files σr !! file = Some f ->
          tck_weights_in σr = None ->
          open f = Ok (properties, dt, length (create dt props).1) ->
          exists r r',
            Reader_new file σr = Ok (r, properties)
            /\ Reader_call r tck0
               = Ok (false, {| points := []; index := index tck0;
                               weight := weight tck0 |}, r')
            /\ is_open (in_ r') = false
            /\ Reader_call r' tck1
               = Ok (false, {| points := []; index := index tck1;
                               weight := weight tck1 |}, r')).
Proof.
  intros Hupd Hdt Hopt Hnew Hne.
  destruct (WriterUnbuffered_new_ok host_le create file dt props σ0 σ1 w0
              Hnew Hopt) as (Hok & Hn & Hd & Ho & _).
  destruct (WriterUnbuffered_calls_ok host_le Point_default update_counts
              str_float (tck :: tcks) _ [] w0 σ1 Hok)
    as (w & σ & Hcs & Hok' & Hn' & Hd' & _).
  { now rewrite Ho. }
  destruct Hok' as (_ & (f & Hf & Hlen & Hdrop) & _).
  rewrite Hn', Hn in Hf. rewrite Hd', Hd in Hdrop.
  cbn [app map concat] in Hdrop. unfold unbuffered_bytes at 1 in Hdrop.
  destruct (points tck) as [| p ps] eqn:Ept; [congruence |].
  cbn [length replicate points_bytes map concat] in Hdrop.
  rewrite <- !(assoc_L (++)) in Hdrop.
  exists w, σ, f. split; [exact Hcs |]. split; [exact Hf |].
  intros σr properties tck0 tck1 Hfr Hin Hopen.
  unfold TrackFile.Reader_new. rewrite Hfr, Hopen.
  cbn [mbind result_bind]. cbn beta iota. rewrite Hin.
  set (r := {| in_ := _; dtype := dt; current_index := 0; weights := [] |}).
  match type of Hdrop with _ = _ ++ ?x => set (rest := x) in Hdrop end.
  assert (Hpre : in_ r = stream_at f (length (take (length (create dt props).1) f))).
  { unfold r. cbn [in_]. unfold stream_at. f_equal. rewrite length_take. lia. }
  assert (Hff : f = take (length (create dt props).1) f
                    ++ point_bytes (dtype r) barrier ++ rest).
  { cbn [dtype r]. rewrite <- Hdrop. now rewrite take_drop. }
  pose proof (Reader_call_barrier host_le Point_default float_of_double r tck0
                f _ rest Hdt Hpre Hff) as Hcall.
  eexists r, _. split; [reflexivity |]. split; [exact Hcall |].
  split; reflexivity.
Qed.

(** X6: a reader at fewer than 12 bytes from the end of a Float32 file
    returns false without a streamline and closes the file, whatever the
    bytes left are. *)
Theorem Reader_call_truncated (r : Reader) (tck : Streamline) :
  dtype r = Float32LE \/ dtype r = Float32BE ->
  is_open (in_ r) = true ->
  eofbit (in_ r) = false ->
  (length (content (in_ r)) < gpos (in_ r) + 12)%nat ->
  exists r',
    Reader_call r tck
    = Ok (false, {| points := []; index := index tck; weight := weight tck |},
          r')
    /\ is_open (in_ r') = false /\ eofbit (in_ r') = true
    /\ dtype r' = dtype r /\ current_index r' = current_index r.
Proof.
  intros Hdt Hop He Hshort.
  unfold TrackFile.Reader_call. rewrite Hop.
  cbn [TrackFile.Reader_loop]. unfold TrackFile.get_next_point.
  assert (Hrd : exists bs s,
             read 12 (in_ r) = (bs, s) /\ eofbit s = true).
  { unfold read. rewrite He. eexists _, _. split; [reflexivity |].
    cbn [eofbit]. apply bool_decide_eq_true_2.
    rewrite length_take, length_drop. lia. }
  destruct Hrd as (bs & s & Hrd & Hs).
  unfold TrackFile.read_Point.
  change (3 * 4)%nat with 12%nat.
  destruct Hdt as [Hdt | Hdt]; rewrite Hdt, Hrd; cbn [mbind result_bind];
    cbn beta iota; cbn [in_ set_in]; rewrite Hs;
    destruct (isinf _); eexists; (split; [reflexivity |]); cbn;
    repeat split; assumption.
Qed.

End Track_file_more.

(** *** Further properties, on a little-endian machine with the example header *)

Lemma WriterUnbuffered_new_creates_witness :
  exists w σ1,
    TrackFile.WriterUnbuffered_new true Example.create "t.tck" Float32LE ∅
      (Example.world false None) = Ok (w, σ1)
    /\ files σ1 !! "t.tck"%string
       = Some ((Example.create Float32LE ∅).1 ++ point_bytes Float32LE barrier)
    /\ barrier_addr w = 17%nat.
Proof.
  destruct (WriterUnbuffered_new_creates true Example.create "t.tck"
              Float32LE ∅ (Example.world false None) eq_refl) as [Hok _].
  destruct (Hok ltac:(vm_compute; reflexivity))
    as (w & σ1 & Hnew & Hf & Hb & _).
  exists w, σ1. split; [exact Hnew |].
  split; [rewrite Hf; apply lookup_insert_eq | exact Hb].
Defined.

Lemma WriterUnbuffered_new_weights_no_force_witness :
  exists msg,
    TrackFile.WriterUnbuffered_new true Example.create "t.tck" Float32LE ∅
      {| files := ∅; readonly := ∅; overwrite_files := false;
         tck_weights_in := None; tck_weights_out := Some "w.txt"%string;
         TrackWriterBufferSize := None |} = Exception msg.
Proof.
  exact (WriterUnbuffered_new_weights_no_force true Example.create "t.tck"
           "w.txt" Float32LE ∅
           {| files := ∅; readonly := ∅; overwrite_files := false;
              tck_weights_in := None; tck_weights_out := Some "w.txt"%string;
              TrackWriterBufferSize := None |} eq_refl eq_refl).
Defined.


Lemma Writer_delete_past_buffer_witness :
  exists w σ w',
    TrackFile.Writer_new true (fun _ => 0) Example.create "t.tck" Float32LE ∅
      16777216 (Example.world true (Some 24)) = Ok (w, σ)
    /\ buffer_capacity w = 2%nat
    /\ TrackFile.Writer_call true Example.update_counts Example.str_float w
         (Example.tck3 one) σ = Ok (true, w', σ)
    /\ TrackFile.Writer_delete true Example.update_counts w' σ = Undefined.
Proof.
  eassert (Hnew : TrackFile.Writer_new true (fun _ => 0) Example.create
                    "t.tck" Float32LE ∅ 16777216
                    (Example.world true (Some 24)) = Ok (_, _))
    by (vm_compute; reflexivity).
  destruct (Writer_delete_past_buffer true (fun _ => 0) Example.create
              Example.update_counts Example.str_float _ _ _ _ _ _ _
              (Example.tck3 one) Hnew eq_refl eq_refl)
    as (w' & Hc & _ & _ & Hd).
  eexists _, _, w'. split; [exact Hnew |]. split; [reflexivity |].
  split; [exact Hc | exact Hd].
Defined.

Lemma WriterUnbuffered_Reader_nothing_witness :
  exists w0 σ1 w σ f properties r r',
    TrackFile.WriterUnbuffered_new true Example.create "t.tck" Float32LE ∅
      (Example.world true None) = Ok (w0, σ1)
    /\ TrackFile.WriterUnbuffered_calls true (fun _ => 0)
         Example.update_counts Example.str_float w0 [Example.tck3 one] σ1
       = Ok (w, σ)
    /\ files σ !! "t.tck"%string = Some f
    /\ TrackFile.Reader_new Example.open Example.load "t.tck" σ
       = Ok (r, properties)
    /\ TrackFile.Reader_call true (fun _ => 0) (fun d => d) r
         (Example.tck3 0)
       = Ok (false, {| points := []; index := 0; weight := 0 |}, r').
Proof.
  eassert (Hnew : TrackFile.WriterUnbuffered_new true Example.create "t.tck"
                    Float32LE ∅ (Example.world true None) = Ok (_, _))
    by (vm_compute; reflexivity).
  destruct (WriterUnbuffered_Reader_nothing true (fun _ => 0) (fun d => d)
              Example.create Example.update_counts Example.str_float
              Example.open Example.load "t.tck" Float32LE ∅
              (Example.world true None) _ _ (Example.tck3 one) []
              Example_counts_in_header (or_introl eq_refl)
              ltac:(discriminate) Hnew ltac:(discriminate))
    as (w & σ & f & Hcs & Hf & Hread).
  pose proof Hcs as Hcs'. vm_compute in Hcs'. injection Hcs' as <- <-.
  pose proof Hf as Hf'. vm_compute in Hf'. injection Hf' as <-.
  lazymatch type of Hf with
  | _ = Some ?f =>
      eassert (Hopen : Example.open f = Ok (_, Float32LE, 17%nat))
        by (vm_compute; reflexivity)
  end.
  destruct (Hread _ _ (Example.tck3 0) (Example.tck3 0) Hf eq_refl Hopen)
    as (r & r' & Hr & Hcall & _).
  eexists _, _, _, _, _, _, r, r'.
  split; [exact Hnew |]. split; [exact Hcs |]. split; [exact Hf |].
  split; [exact Hr | exact Hcall].
Defined.

Lemma Reader_call_truncated_witness :
  exists r',
    TrackFile.Reader_call true (fun _ => 0) (fun d => d)
      {| in_ := stream_at [Byte.x00; Byte.x00; Byte.x00] 0;
         dtype := Float32LE; current_index := 0; weights := [] |}
      (Example.tck3 0)
    = Ok (false, {| points := []; index := 0; weight := 0 |}, r')
    /\ is_open (in_ r') = false.
Proof.
  destruct (Reader_call_truncated true (fun _ => 0) (fun d => d)
              {| in_ := stream_at [Byte.x00; Byte.x00; Byte.x00] 0;
                 dtype := Float32LE; current_index := 0; weights := [] |}
              (Example.tck3 0) (or_introl eq_refl) eq_refl eq_refl)
    as (r' & Hc & Ho & _).
  { simpl. lia. }
  exists r'. split; [exact Hc | exact Ho].
Defined.

End TrackFileProperties.
